(** * A Telegram front end for yt-dlp: session cache, URL normalisation and
      the life cycle of the downloaded file (src/main.py).

    The program is a set of chat-event handlers around a module-level
    dictionary [user_data] and a delegated download.  The embedding keeps
    the Python text close:

    - Python [str] values are [string]s holding their UTF-8 encoding; the
      fixed texts of the program are kept verbatim;
    - [int] values are [Z]; a [float] is the rational [Q] it denotes, and
      the float operations of the program ([-], [/]) round their exact
      result to the nearest double, ties to even (module [Float]);
    - the dictionary [user_data] is a [gmap Z entry];
    - handlers run in a small state-and-exception monad [M] over a [world];
      what the outside does (clock, chat transport, yt-dlp) is an [Env] of
      oracles.

    As it stands, src/main.py does not parse: the call at lines 176-181
    opens a list at line 178 and never closes it (line 180 reads [)] where
    [])] is needed).  Every other statement is well formed; that call is
    embedded as it reads with the bracket closed (see [download_body]). *)

From Stdlib Require Import ZArith QArith Qround Qabs Qpower String Ascii List.
From Stdlib Require Import DecimalString DecimalZ Lia Lqa.
From stdpp Require Import gmap strings list sorting.

Local Open Scope Z_scope.
Local Open Scope string_scope.

(** ** Python string primitives *)

Module Py.

(** [s.split(sep)] for a one-character separator: never the empty list. *)
Fixpoint split (sep : ascii) (s : string) : list string :=
  match s with
  | EmptyString => [EmptyString]
  | String c s' =>
      if Ascii.eqb c sep then EmptyString :: split sep s'
      else match split sep s' with
           | [] => [String c EmptyString]
           | p :: ps => String c p :: ps
           end
  end.

(** [pat in s] on strings: some suffix of [s] starts with [pat]. *)
Fixpoint contains (pat s : string) : bool :=
  String.prefix pat s ||
  match s with
  | EmptyString => false
  | String _ s' => contains pat s'
  end.

(** [l[0]], [l[1]] and [l[-1]] on the result of a split; [None] stands for
    [IndexError]. *)
Definition first (l : list string) : option string := head l.
Definition second (l : list string) : option string := l !! 1%nat.
Definition final (l : list string) : option string := last l.

(** [str(n)] and [int(s)] for integers.  [int] is modelled on the texts
    that [str] produces (an optional minus sign and decimal digits);
    [None] stands for [ValueError]. *)
Definition str (n : Z) : string := NilZero.string_of_int (Z.to_int n).
Definition int (s : string) : option Z := Z.of_int <$> NilZero.int_of_string s.

(** [int(x)] on a float: truncation towards zero. *)
Definition int_of_float (x : Q) : Z := Z.quot (Qnum x) (Z.pos (Qden x)).

(** [s.strip()]: the white space of [str.isspace] removed at both ends.
    The white-space characters are U+0009 to U+000D, U+001C to U+0020,
    U+0085, U+00A0, U+1680, U+2000 to U+200A, U+2028, U+2029, U+202F,
    U+205F and U+3000; in UTF-8 they take one, two or three bytes. *)
Definition is_space (c : ascii) : bool :=
  let n := nat_of_ascii c in
  ((9 <=? n)%nat && (n <=? 13)%nat) || ((28 <=? n)%nat && (n <=? 32)%nat).

Definition is_space2 (a b : ascii) : bool :=
  let y := nat_of_ascii b in
  (nat_of_ascii a =? 194)%nat && ((y =? 133)%nat || (y =? 160)%nat).

Definition is_space3 (a b c : ascii) : bool :=
  let x := nat_of_ascii a in
  let y := nat_of_ascii b in
  let z := nat_of_ascii c in
  ((x =? 225)%nat && (y =? 154)%nat && (z =? 128)%nat)
  || ((x =? 226)%nat && (y =? 128)%nat
      && (((128 <=? z)%nat && (z <=? 138)%nat)
          || (z =? 168)%nat || (z =? 169)%nat || (z =? 175)%nat))
  || ((x =? 226)%nat && (y =? 129)%nat && (z =? 159)%nat)
  || ((x =? 227)%nat && (y =? 128)%nat && (z =? 128)%nat).

(** The text is exactly one white-space character. *)
Definition one_space (s : string) : bool :=
  match s with
  | String a EmptyString => is_space a
  | String a (String b EmptyString) => is_space2 a b
  | String a (String b (String c EmptyString)) => is_space3 a b c
  | _ => false
  end.

Fixpoint lstrip (s : string) : string :=
  match s with
  | EmptyString => EmptyString
  | String a s1 =>
      if is_space a then lstrip s1
      else
        match s1 with
        | EmptyString => s
        | String b s2 =>
            if is_space2 a b then lstrip s2
            else
              match s2 with
              | EmptyString => s
              | String c s3 => if is_space3 a b c then lstrip s3 else s
              end
        end
  end.

Fixpoint rstrip (s : string) : string :=
  match s with
  | EmptyString => EmptyString
  | String c s' =>
      let r := String c (rstrip s') in
      if one_space r then EmptyString else r
  end.

Definition strip (s : string) : string := rstrip (lstrip s).

End Py.

(** ** Double-precision arithmetic *)

(** The integer nearest to [num / den] (for [den > 0]), the even one of
    the two when they are equally near. *)
Definition round_half_even (num den : Z) : Z :=
  let q := num / den in
  let r := num mod den in
  if (2 * r <? den)%Z then q
  else if (den <? 2 * r)%Z then q + 1
  else if Z.even q then q else q + 1.

Module Float.

(** The exponent of the smallest normal double. *)
Definition emin : Z := -1022.

(** For [x > 0], the [e] with [2^e <= x < 2^(e+1)]. *)
Definition floor_log2 (x : Q) : Z :=
  if Qle_bool 1 x then Z.log2 (Qfloor x)
  else - Z.log2_up (Qceiling (/ x)).

(** The distance between the doubles around [x]: 52 binary places below
    the leading one, and never below [2^-1074]. *)
Definition ulp (x : Q) : Q :=
  (2 ^ (Z.max (floor_log2 (Qabs x)) emin - 52))%Q.

Definition nearest_even (y : Q) : Z := round_half_even (Qnum y) (Z.pos (Qden y)).

(** The double nearest to [x], ties to the even mantissa.  A value beyond
    the largest double is an infinity in Python; here it keeps a finite
    value of the same sign and of a larger magnitude than every double the
    program compares it with. *)
Definition round (x : Q) : Q :=
  if Qeq_bool x 0 then 0%Q
  else (inject_Z (nearest_even (x / ulp x)) * ulp x)%Q.

(** [x - y] on floats, and [x / y] on floats or on integers (true
    division): the exact result, rounded. *)
Definition sub (x y : Q) : Q := round (x - y).
Definition div (x y : Q) : Q := round (x / y).

End Float.

(** ** Utility functions of the bot *)

Definition is_valid_youtube_url (url : string) : bool :=
  Py.contains "youtube.com" url || Py.contains "youtu.be" url.

(** [url.split("/")[-1].split("?")[0]] *)
Definition video_id (url : string) : string :=
  default "" (Py.first (Py.split "?" (default "" (Py.final (Py.split "/" url))))).

Definition normalize_youtube_url (url : string) : string :=
  if Py.contains "youtu.be" url
  then "https://www.youtube.com/watch?v=" ++ video_id url
  else default "" (Py.first (Py.split "&" url)).

(** ** Data *)

(** Constants of the program. *)
Definition MAX_TELEGRAM_FILE_SIZE : Z := 2097152000.
Definition DOWNLOAD_TIMEOUT : Z := 300.
Definition CACHE_EXPIRY : Q := 3600.

(** One value of [user_data]: the dictionary literal built by
    [handle_message], with its three keys as fields.  The [formats]
    dictionary maps [str(height)] to a format id. *)
Record entry := Entry {
  url : string;
  formats : gmap string string;
  timestamp : Q
}.

(** One element of [info["formats"]] as the code reads it: [f.get("height")],
    [f.get("vcodec")] ([None] when the key is missing or holds [None]) and
    [f["format_id"]]. *)
Record fmt := Fmt {
  height : option Z;
  vcodec : option string;
  format_id : string
}.

(** Exceptions: the ones the program can raise itself, and [External] for
    anything raised by yt-dlp or the chat transport; the argument is
    [str(e)]. *)
Inductive exn :=
| FileNotFoundError (msg : string)
| ValueError (msg : string)
| KeyError (msg : string)
| IndexError (msg : string)
| AttributeError (msg : string)
| External (msg : string).

Definition exn_str (e : exn) : string :=
  match e with
  | FileNotFoundError m | ValueError m | KeyError m | IndexError m
  | AttributeError m | External m => m
  end.

Record button := Button { label : string; callback_data : string }.

(** The options dictionary handed to [yt_dlp.YoutubeDL] by [download_video]. *)
Record ydl_opts := YdlOpts {
  opt_format : string;
  opt_outtmpl : string;
  opt_quiet : bool;
  opt_no_warnings : bool;
  opt_socket_timeout : Z;
  opt_retries : Z;
  opt_fragment_retries : Z;
  opt_extract_flat : bool;
  opt_max_filesize : Z;
  opt_http_chunk_size : Z;
  opt_user_agent : string
}.

(** What a handler does to the outside, in the order it does it. *)
Inductive event :=
| Answer
| ReplyText (text : string) (reply_markup : option (list (list button)))
| ReplyVideo (path : string) (supports_streaming : bool)
    (read_timeout write_timeout connect_timeout : Z)
| ExtractInfo (u : string)
| YdlDownload (opts : ydl_opts) (u : string)
| LogError (text : string)
| Sleep (seconds : Z).

(** The callback query, as far as the handlers read it. *)
Record query := Query { chat_id : Z; data : string }.

(** The update given to [handle_message], as far as it reads it:
    [update.message] is [None] on an update that carries no new message (an
    edited message, a channel post), and has [chat_id] and [text]
    otherwise. *)
Record message := Message { message_chat_id : Z; message_text : string }.
Record update := Update { update_message : option message }.

(** The outside.  Every external call is numbered by the count of external
    calls made before it, so an oracle can answer each call differently. *)
Record Env := {
  clock : nat -> Q;
  chat : nat -> event -> option exn;
  extract_info : nat -> string -> exn + list fmt;
  ydl_download :
    nat -> ydl_opts -> string -> gmap string Z -> gmap string Z * option exn
}.

(** The state handlers act on: the dictionary [user_data], the files of the
    working directory with their sizes, the events so far (newest first)
    and the number of external calls so far. *)
Record world := World {
  user_data : gmap Z entry;
  files : gmap string Z;
  trace : list event;
  calls : nat
}.

(** ** The handler monad: state and exceptions *)

Inductive result (A : Type) :=
| Ok (a : A)
| Raise (e : exn).
Arguments Ok {A} a.
Arguments Raise {A} e.

Definition M (A : Type) : Type := world -> result A * world.

Definition ret {A} (a : A) : M A := fun w => (Ok a, w).

Definition bind {A B} (m : M A) (k : A -> M B) : M B :=
  fun w =>
    match m w with
    | (Ok a, w') => k a w'
    | (Raise e, w') => (Raise e, w')
    end.

Definition raise {A} (e : exn) : M A := fun w => (Raise e, w).

(** [try: body  except Exception as e: handler e] *)
Definition try_except {A} (body : M A) (handler : exn -> M A) : M A :=
  fun w =>
    match body w with
    | (Ok a, w') => (Ok a, w')
    | (Raise e, w') => handler e w'
    end.

(** [try: body  finally: fin]: [fin] runs whatever [body] did; an exception
    of [fin] replaces the outcome of [body]. *)
Definition try_finally {A} (body : M A) (fin : M unit) : M A :=
  fun w =>
    match body w with
    | (r, w') =>
        match fin w' with
        | (Ok _, w'') => (r, w'')
        | (Raise e, w'') => (Raise e, w'')
        end
    end.

Declare Scope handler_scope.
Delimit Scope handler_scope with handler.
Notation "x <- m ;; k" := (bind m (fun x => k))
  (at level 100, m at next level, right associativity) : handler_scope.
Notation "m ;; k" := (bind m (fun _ => k))
  (at level 100, right associativity) : handler_scope.
Local Open Scope handler_scope.

Definition get_world : M world := fun w => (Ok w, w).

Definition bump (w : world) : world :=
  World (user_data w) (files w) (trace w) (S (calls w)).
Definition record (ev : event) (w : world) : world :=
  World (user_data w) (files w) (ev :: trace w) (calls w).
Definition with_user_data (d : gmap Z entry) (w : world) : world :=
  World d (files w) (trace w) (calls w).
Definition with_files (fs : gmap string Z) (w : world) : world :=
  World (user_data w) fs (trace w) (calls w).

Definition set_user_data (d : gmap Z entry) : M unit :=
  fun w => (Ok tt, with_user_data d w).

(** [None] of a Python-level partial operation becomes the exception. *)
Definition or_raise {A} (o : option A) (e : exn) : M A :=
  match o with
  | Some a => ret a
  | None => raise e
  end.

#[global] Instance Qlt_decision (x y : Q) : Decision (x < y)%Q.
Proof. destruct (Qlt_le_dec x y); [left | right]; [assumption | now apply Qle_not_lt]. Defined.

Section Handlers.

Context (env : Env).

(** *** External calls *)

Definition time_time : M Q :=
  fun w => (Ok (clock env (calls w)), bump w).

(** A chat action or a [time.sleep]: recorded, then it returns or raises
    as the transport decides. *)
Definition chat_call (ev : event) : M unit :=
  fun w =>
    let w' := record ev (bump w) in
    match chat env (calls w) ev with
    | None => (Ok tt, w')
    | Some e => (Raise e, w')
    end.

Definition query_answer : M unit := chat_call Answer.
Definition reply_text (text : string) (kb : option (list (list button))) : M unit :=
  chat_call (ReplyText text kb).
Definition reply_video (path : string) : M unit :=
  chat_call (ReplyVideo path true DOWNLOAD_TIMEOUT DOWNLOAD_TIMEOUT DOWNLOAD_TIMEOUT).

Definition logger_error (text : string) : M unit :=
  fun w => (Ok tt, record (LogError text) w).

Definition time_sleep (seconds : Z) : M unit :=
  fun w => (Ok tt, record (Sleep seconds) (bump w)).

Definition ydl_extract_info (u : string) : M (list fmt) :=
  fun w =>
    let w' := record (ExtractInfo u) (bump w) in
    match extract_info env (calls w) u with
    | inr fs => (Ok fs, w')
    | inl e => (Raise e, w')
    end.

Definition ydl_download_call (opts : ydl_opts) (u : string) : M unit :=
  fun w =>
    let '(fs, r) := ydl_download env (calls w) opts u (files w) in
    let w' := with_files fs (record (YdlDownload opts u) (bump w)) in
    match r with
    | None => (Ok tt, w')
    | Some e => (Raise e, w')
    end.

(** *** The file system calls of [download_video] *)

Definition os_path_exists (p : string) : M bool :=
  fun w => (Ok (bool_decide (is_Some (files w !! p))), w).

Definition os_path_getsize (p : string) : M Z :=
  fun w =>
    match files w !! p with
    | Some sz => (Ok sz, w)
    | None => (Raise (FileNotFoundError p), w)
    end.

Definition os_remove (p : string) : M unit :=
  fun w =>
    match files w !! p with
    | Some _ => (Ok tt, with_files (delete p (files w)) w)
    | None => (Raise (FileNotFoundError p), w)
    end.

(** *** Format discovery *)

(** The filter of the comprehension in [get_video_qualities]:
    [f.get("height") and f.get("vcodec") != "none"]. *)
Definition usable (f : fmt) : bool :=
  match height f with
  | Some h => negb (h =? 0)%Z && negb (bool_decide (vcodec f = Some "none"))
  | None => false
  end.

(** The dictionary comprehension: later formats of the same height
    overwrite earlier ones. *)
Definition qualities (fs : list fmt) : gmap string string :=
  foldl (fun m f =>
           match height f with
           | Some h => if usable f then <[Py.str h := format_id f]> m else m
           | None => m
           end) ∅ fs.

Definition get_video_qualities (u : string) : M (option (gmap string string)) :=
  try_except
    (fs <- ydl_extract_info u ;; ret (Some (qualities fs)))
    (fun e =>
       logger_error ("Error getting qualities: " ++ exn_str e) ;; ret None).

(** [sorted(..., reverse=True)] on integers. *)
Definition sorted_reverse (l : list Z) : list Z :=
  merge_sort Z.ge l.

(** [[int(r) for r in formats.keys()]]: the first key that is not a number
    raises.  The order of the keys does not survive the sort, so the keys
    are taken in the order of the map. *)
Fixpoint ints (keys : list string) : M (list Z) :=
  match keys with
  | [] => ret []
  | k :: ks =>
      n <- or_raise (Py.int k)
             (ValueError ("invalid literal for int() with base 10: '" ++ k ++ "'")) ;;
      ns <- ints ks ;;
      ret (n :: ns)
  end.

Definition quality_button (res : Z) : list button :=
  [Button (Py.str res ++ "p") ("quality_" ++ Py.str res)].

(** *** [handle_message] *)

(** [handle_message] on an update that carries a message:
    [user_id = update.message.chat_id] and [text = update.message.text]
    (lines 73-74).  The two attribute accesses stand before the [try]; what
    they do on an update without a message is in [handle_message_update]
    below. *)
Definition handle_message (user_id : Z) (text : string) : M unit :=
  let url := normalize_youtube_url (Py.strip text) in
  try_except
    (if negb (is_valid_youtube_url url)
     then reply_text "⚠️ Please send a valid YouTube URL." None
     else
       found <- get_video_qualities url ;;
       match found with
       | None =>
           reply_text "❌ No downloadable formats found. Try another video." None
       | Some formats =>
           if bool_decide (formats = ∅)
           then reply_text "❌ No downloadable formats found. Try another video." None
           else
             now <- time_time ;;
             w <- get_world ;;
             set_user_data (<[user_id := Entry url formats now]> (user_data w)) ;;
             heights <- ints (map_to_list formats).*1 ;;
             let available_res := take 4 (sorted_reverse heights) in
             reply_text "🎞️ Select video quality:"
               (Some (quality_button <$> available_res))
       end)
    (fun e =>
       logger_error ("Error processing URL: " ++ exn_str e) ;;
       reply_text "❌ Error processing link. Please try again." None).

(** [handle_message] as it is registered, on any update: without a
    message, the access [update.message.chat_id] of line 73 raises, outside
    the [try]. *)
Definition handle_message_update (upd : update) : M unit :=
  match update_message upd with
  | None => raise (AttributeError "'NoneType' object has no attribute 'chat_id'")
  | Some m => handle_message (message_chat_id m) (message_text m)
  end.

(** *** [download_video] *)

Definition artifact_path (user_id : Z) (now : Q) : string :=
  "download_" ++ Py.str user_id ++ "_" ++ Py.str (Py.int_of_float now) ++ ".mp4".

Definition download_opts (resolution file_path : string) : ydl_opts :=
  {| opt_format :=
       "bestvideo[height<=" ++ resolution ++ "][ext=mp4]+bestaudio[ext=m4a]/best[ext=mp4]";
     opt_outtmpl := file_path;
     opt_quiet := true;
     opt_no_warnings := true;
     opt_socket_timeout := 30;
     opt_retries := 3;
     opt_fragment_retries := 3;
     opt_extract_flat := true;
     opt_max_filesize := MAX_TELEGRAM_FILE_SIZE;
     opt_http_chunk_size := 1048576;
     opt_user_agent :=
       "Mozilla/5.0 (Windows NT 10.0; Win64; x64) AppleWebKit/537.36 (KHTML, like Gecko) Chrome/120.0.0.0 Safari/537.36" |}.

(** [f"{x:.2f}"] for [x = num / den]: rounded to two decimals, ties to the
    even neighbour. *)
Definition format_2f (num den : Z) : string :=
  let n := round_half_even (100 * num) den in
  let cents := n mod 100 in
  Py.str (n / 100) ++ "." ++ (if (cents <? 10)%Z then "0" else "") ++ Py.str cents.

(** [f"File too large ({file_size/1024/1024:.2f}MB > 2000MB)"]: the true
    division of the integer by 1024 and the division of the resulting
    float by 1024 each round to a double, and the double is printed with
    two decimals.  [os.path.getsize] returns [st_size], which is below
    [2^63]: neither division can overflow. *)
Definition too_large_text (file_size : Z) : string :=
  let mb := Float.div (Float.div (inject_Z file_size) 1024) 1024 in
  "File too large (" ++ format_2f (Qnum mb) (Z.pos (Qden mb)) ++ "MB > 2000MB)".

(** The [try] block.  Its last statement, lines 176-181, is not well
    formed in the source: the list opened at line 178 is not closed (line
    180 reads [)] for [])]).  It is embedded as the call it becomes with
    the bracket closed, a reply with the one-button menu; what is proved
    of that reply holds of this reading only. *)
Definition download_body (u resolution file_path : string) : M unit :=
  _ <- time_time ;;
  ydl_download_call (download_opts resolution file_path) u ;;
  there <- os_path_exists file_path ;;
  if negb there
  then raise (FileNotFoundError "Download failed - no output file")
  else
    file_size <- os_path_getsize file_path ;;
    if (MAX_TELEGRAM_FILE_SIZE <? file_size)%Z
    then raise (ValueError (too_large_text file_size))
    else
      reply_text "✅ Download complete! Uploading now..." None ;;
      reply_video file_path ;;
      reply_text "🎉 Done! Want to download another video?"
        (Some [[Button "⬇️ Download Another" "enter_link"]]).

Definition download_failed (e : exn) : M unit :=
  logger_error ("Download error: " ++ exn_str e) ;;
  reply_text ("❌ Download failed: " ++ exn_str e) None.

Definition download_cleanup (file_path : string) : M unit :=
  there <- os_path_exists file_path ;;
  if there then os_remove file_path else ret tt.

Definition download_video (u resolution : string) (q : query) : M unit :=
  let user_id := chat_id q in
  now <- time_time ;;
  let file_path := artifact_path user_id now in
  try_finally
    (try_except (download_body u resolution file_path) download_failed)
    (download_cleanup file_path).

(** *** [start] *)

Definition start : M unit :=
  reply_text
    "👋 Welcome to YouTube Downloader Bot!
I can download videos from YouTube for you.

Press the button below to start ➡️"
    (Some [[Button "🎥 Enter YouTube Link" "enter_link"]]).

(** *** [button_handler] *)

Definition button_handler (q : query) : M unit :=
  query_answer ;;
  let user_id := chat_id q in
  if String.eqb (data q) "enter_link"
  then reply_text "📥 Please send the YouTube video link:" None
  else if String.prefix "quality_" (data q)
  then
    w <- get_world ;;
    if bool_decide (is_Some (user_data w !! user_id))
    then
      quality <- or_raise (Py.second (Py.split "_" (data q)))
                   (IndexError "list index out of range") ;;
      video_info <- or_raise (user_data w !! user_id) (KeyError (Py.str user_id)) ;;
      reply_text ("⏳ Downloading in " ++ quality ++ "p... Please wait.") None ;;
      download_video (url video_info) quality q
    else reply_text "❌ Session expired. Please send the link again." None
  else ret tt.

(** *** [cleanup_old_data] *)

(** The condition of the comprehension:
    [current_time - data.get("timestamp", 0) > CACHE_EXPIRY], with the
    subtraction of floats (every entry has the key ["timestamp"]). *)
Definition expired (current_time : Q) (d : entry) : Prop :=
  (CACHE_EXPIRY < Float.sub current_time (timestamp d))%Q.

Definition expired_users (current_time : Q) (ud : gmap Z entry) : list Z :=
  map fst (filter (fun p => expired current_time (snd p)) (map_to_list ud)).

Definition pop_all (users : list Z) (ud : gmap Z entry) : gmap Z entry :=
  foldl (fun m user_id => delete user_id m) ud users.

(** One turn of the [while True] loop. *)
Definition cleanup_pass : M unit :=
  try_except
    (current_time <- time_time ;;
     w <- get_world ;;
     set_user_data (pop_all (expired_users current_time (user_data w)) (user_data w)) ;;
     time_sleep 3600)
    (fun e => logger_error ("Cleanup error: " ++ exn_str e)).

(** The loop itself never returns; [cleanup_old_data n] is its first [n]
    turns. *)
Fixpoint cleanup_old_data (turns : nat) : M unit :=
  match turns with
  | O => ret tt
  | S n => cleanup_pass ;; cleanup_old_data n
  end.

End Handlers.

(** * Notions used in the statements *)

(** ** Pieces of a string *)

(** [s.split(sep)[0]] *)
Definition before (sep : ascii) (s : string) : string :=
  default "" (Py.first (Py.split sep s)).

(** [s.split(sep)[-1]] *)
Definition after_last (sep : ascii) (s : string) : string :=
  default "" (Py.final (Py.split sep s)).

Definition watch_prefix : string := "https://www.youtube.com/watch?v=".

(** The characters [str] can produce. *)
Definition decimal_char (c : ascii) : bool :=
  existsb (fun d => Ascii.eqb d c) (list_ascii_of_string "-0123456789").

(** ** Properties of handler computations *)

(** A property of the world that a computation keeps. *)
Definition keeps (I : world -> Prop) {A} (m : M A) : Prop :=
  forall w, I w -> I (snd (m w)).

(** A computation that neither reads nor writes [user_data]. *)
Definition ignores_store {A} (m : M A) : Prop :=
  forall w ud, m (with_user_data ud w) = (fst (m w), with_user_data ud (snd (m w))).


(** ** Pieces of the handlers *)

(** The three chat actions that end a successful download. *)
Definition upload (env : Env) (file_path : string) : M unit :=
  (reply_text env "✅ Download complete! Uploading now..." None ;;
   reply_video env file_path ;;
   reply_text env "🎉 Done! Want to download another video?"
     (Some [[Button "⬇️ Download Another" "enter_link"]]))%handler.

(** The world right after the call of [ydl.download] made by the body
    started in [w], when the call left the files [fs]. *)
Definition after_ydl (u res p : string) (fs : gmap string Z) (w : world) : world :=
  with_files fs (record (YdlDownload (download_opts res p) u) (bump (bump w))).

(** Where a fault of the [try] block comes from. *)
Inductive fault_origin (env : Env) (u : string) : exn -> Prop :=
| no_output_file :
    fault_origin env u (FileNotFoundError "Download failed - no output file")
| file_too_large sz :
    MAX_TELEGRAM_FILE_SIZE < sz ->
    fault_origin env u (ValueError (too_large_text sz))
| resolver_fault n opts fs fs' e :
    ydl_download env n opts u fs = (fs', Some e) -> fault_origin env u e
| transport_fault n ev e :
    chat env n ev = Some e -> fault_origin env u e.

Definition session_expired_reply : event :=
  ReplyText "❌ Session expired. Please send the link again." None.

Definition downloading_reply (quality : string) : event :=
  ReplyText ("⏳ Downloading in " ++ quality ++ "p... Please wait.") None.

(** [button_handler] with the result of the dictionary access made a
    parameter: [None] when the key is absent, the stored URL otherwise. *)
Definition on_button (env : Env) (q : query) (stored_url : option string) : M unit :=
  (query_answer env ;;
   if String.eqb (data q) "enter_link"
   then reply_text env "📥 Please send the YouTube video link:" None
   else if String.prefix "quality_" (data q)
   then
     match stored_url with
     | Some u =>
         quality <- or_raise (Py.second (Py.split "_" (data q)))
                      (IndexError "list index out of range") ;;
         reply_text env ("⏳ Downloading in " ++ quality ++ "p... Please wait.") None ;;
         download_video env u quality q
     | None => reply_text env "❌ Session expired. Please send the link again." None
     end
   else ret tt)%handler.

(** ** The qualities offered *)

(** The heights that pass the filter of [get_video_qualities], in the order
    of the resolver's list, repetitions included. *)
Definition usable_heights (fs : list fmt) : list Z :=
  omap (fun f => if usable f then height f else None) fs.

(** [offered] is the top four of [hs]: strictly descending, taken from
    [hs], four of them unless [hs] has fewer distinct values, and every
    value of [hs] left out is below every value offered. *)
Definition top_four (hs offered : list Z) : Prop :=
  StronglySorted Z.gt offered
  /\ (forall h, h ∈ offered -> h ∈ hs)
  /\ length offered = Nat.min 4 (size (list_to_set hs : gset Z))
  /\ (forall h x, h ∈ hs -> h ∉ offered -> x ∈ offered -> h < x).

(** What [handle_message] still does after a chat call of its [try] block:
    nothing when the call returned, the [except] block when it raised. *)
Definition after_send (outcome : option exn) : list event :=
  match outcome with
  | None => []
  | Some e =>
      [ReplyText "❌ Error processing link. Please try again." None;
       LogError ("Error processing URL: " ++ exn_str e)]
  end.

(** ** Further notions *)

(** The exception [e] was raised by the chat transport on some call. *)
Definition transport_raised (env : Env) (e : exn) : Prop :=
  exists n ev, chat env n ev = Some e.

(** Every exception that leaves the computation satisfies [P]. *)
Definition raises_only (P : exn -> Prop) {A} (m : M A) : Prop :=
  forall w e w1, m w = (Raise e, w1) -> P e.

(** The store holds exactly [X]. *)
Definition store_is (X : gmap Z entry) (w : world) : Prop := user_data w = X.

(** What [handle_message] guarantees of the entries it stores. *)
Definition entry_well_formed (d : entry) : Prop :=
  is_valid_youtube_url (url d) = true /\ formats d <> ∅.

Definition store_well_formed (w : world) : Prop :=
  forall (u : Z) d, user_data w !! u = Some d -> entry_well_formed d.

(** A payload that [button_handler] acts on. *)
Definition payload_understood (payload : string) : Prop :=
  payload = "enter_link" \/ exists res : Z, payload = "quality_" ++ Py.str res.

(** The buttons of an event, and the worlds in which every button sent so
    far carries a payload that [button_handler] acts on. *)
Definition event_buttons (ev : event) : list button :=
  match ev with
  | ReplyText _ (Some kb) => concat kb
  | _ => []
  end.

Definition buttons_understood (w : world) : Prop :=
  forall ev b, In ev (trace w) -> In b (event_buttons ev) ->
               payload_understood (callback_data b).

(** Half the distance between [CACHE_EXPIRY] and the next double above it,
    [2 ^ -42] seconds. *)
Definition half_ulp_expiry : Q := Float.ulp CACHE_EXPIRY / 2.

(** ** Sample environments and worlds *)

Definition sample_url : string := "https://www.youtube.com/watch?v=abc123".
Definition sample_query : query := Query 7 "quality_720".
Definition empty_world : world := World ∅ ∅ [] 0.

Definition sample_formats : list fmt :=
  [Fmt (Some 144) (Some "avc1.4d400c") "160";
   Fmt (Some 360) (Some "avc1.42001E") "18";
   Fmt (Some 480) (Some "avc1.4d401e") "135";
   Fmt (Some 720) (Some "avc1.64001F") "22";
   Fmt (Some 1080) (Some "avc1.640028") "137"].

(** A transport that never fails and a resolver that writes a file of
    [size] bytes where [outtmpl] says. *)
Definition env_writing (size : Z) : Env :=
  {| clock := fun _ => 1700000000.25%Q;
     chat := fun _ _ => None;
     extract_info := fun _ _ => inr sample_formats;
     ydl_download := fun _ opts _ fs => (<[opt_outtmpl opts := size]> fs, None) |}.

(** A resolver whose download raises. *)
Definition env_unavailable : Env :=
  {| clock := fun _ => 1700000000.25%Q;
     chat := fun _ _ => None;
     extract_info := fun _ _ => inr sample_formats;
     ydl_download := fun _ _ _ fs =>
       (fs, Some (External "ERROR: [youtube] abc123: Video unavailable")) |}.

(** The store is first filled by [handle_message] when the clock reads
    1000; every later reading is 5000.  The download writes no file. *)
Definition env_late : Env :=
  {| clock := fun n => if (n <? 3)%nat then 1000%Q else 5000%Q;
     chat := fun _ _ => None;
     extract_info := fun _ _ => inr sample_formats;
     ydl_download := fun _ _ _ fs => (fs, None) |}.

Definition world_after_link : world :=
  snd (handle_message env_late 7 "https://youtu.be/abc123?feature=share" empty_world).

(** Two readings of [time.time()], both doubles: the one nearest to
    0.0999999999999 and the one nearest to 3600.1.  An entry stored at the
    first, and a sweep that runs at the second. *)
Definition stamp_early : Q := 1801439850946397 # 18014398509481984.
Definition reading_late : Q := 7916703622312755 # 2199023255552.




(** A chat transport that fails on every call, and a resolver whose
    download raises. *)
Definition env_mute : Env :=
  {| clock := fun _ => 1700000000.25%Q;
     chat := fun _ _ => Some (External "Timed out");
     extract_info := fun _ _ => inr sample_formats;
     ydl_download := fun _ _ _ fs =>
       (fs, Some (External "ERROR: [youtube] abc123: Video unavailable")) |}.

(** A resolver that refuses the discovery. *)
Definition env_blocked : Env :=
  {| clock := fun _ => 1700000000.25%Q;
     chat := fun _ _ => None;
     extract_info := fun _ _ => inl (External "ERROR: [youtube] abc123: Private video");
     ydl_download := fun _ _ _ fs => (fs, None) |}.

(** A resolver that finds audio only, and whose download writes nothing. *)
Definition env_audio_only : Env :=
  {| clock := fun _ => 1700000000.25%Q;
     chat := fun _ _ => None;
     extract_info := fun _ _ =>
       inr [Fmt None (Some "none") "140"; Fmt (Some 720) (Some "none") "251";
            Fmt (Some 0) (Some "avc1.64001F") "sb0"];
     ydl_download := fun _ _ _ fs => (fs, None) |}.

(** * Properties *)

(** ** Evaluation on examples *)

Example normalize_short :
  normalize_youtube_url "https://youtu.be/abc123?feature=share"
  = "https://www.youtube.com/watch?v=abc123".
Proof. reflexivity. Qed.

Example normalize_long :
  normalize_youtube_url "https://www.youtube.com/watch?v=abc123&t=5&x=1"
  = "https://www.youtube.com/watch?v=abc123".
Proof. reflexivity. Qed.

Example normalize_twice_bad :
  normalize_youtube_url (normalize_youtube_url "youtu.be")
  = "https://www.youtube.com/watch?v=watch".
Proof. reflexivity. Qed.

Example str_ex : Py.str (-1001234) = "-1001234" /\ Py.str 0 = "0" /\ Py.int "720" = Some 720.
Proof. repeat split. Qed.

Example strip_ex : Py.strip "  a b
" = "a b".
Proof. reflexivity. Qed.

(** White space beyond ASCII: a no-break space (U+00A0) in front, an
    ideographic space (U+3000) and a line separator (U+2028) behind; a
    zero-width space (U+200B) is no white space. *)
Example strip_unicode_ex :
  Py.strip "  https://youtu.be/abc　 " = "https://youtu.be/abc"
  /\ Py.strip "​x​" = "​x​"
  /\ Py.strip "     " = "".
Proof. repeat split. Qed.

(** Doubles: [1/3], [1/10], the size of a file of [2 ^ 53 + 33465303]
    bytes in kilobytes (the division rounds), and the difference of the
    two sample readings of the clock. *)
Example float_ex :
  (Float.div 1 3 == 6004799503160661 # 18014398509481984)%Q
  /\ (Float.div 1 10 == 3602879701896397 # 36028797018963968)%Q
  /\ (Float.div 9007199288206295 1024 == 1125899911025787 # 128)%Q
  /\ (Float.sub reading_late stamp_early == 3600)%Q
  /\ (Float.sub 1700003600.5 1700000000.25 == 3600.25)%Q.
Proof. repeat split; now vm_compute. Qed.

(** ** Strings: [split], [in] and what they say about each other *)

Section StringFacts.

Implicit Types (s t pat : string) (sep c : ascii).

Lemma split_nonempty sep s : Py.split sep s <> [].
Proof.
  destruct s as [|c s]; simpl; [discriminate|].
  destruct (Ascii.eqb c sep); [discriminate|].
  destruct (Py.split sep s); discriminate.
Qed.

Lemma before_cons sep c s :
  before sep (String c s) = if Ascii.eqb c sep then "" else String c (before sep s).
Proof.
  unfold before. simpl. destruct (Ascii.eqb c sep); [reflexivity|].
  destruct (Py.split sep s) eqn:E; [|reflexivity].
  now apply split_nonempty in E.
Qed.

Lemma after_last_cons sep c s :
  after_last sep (String c s) =
  if Ascii.eqb c sep then after_last sep s
  else match Py.split sep s with
       | [_] => String c (after_last sep s)
       | _ => after_last sep s
       end.
Proof.
  unfold after_last, Py.final. simpl.
  destruct (Ascii.eqb c sep).
  - destruct (Py.split sep s) eqn:E; [now apply split_nonempty in E|reflexivity].
  - destruct (Py.split sep s) as [|p [|p' ps]] eqn:E;
      [now apply split_nonempty in E|reflexivity|reflexivity].
Qed.

Lemma prefix_empty s : String.prefix "" s = true.
Proof. now destruct s. Qed.

Lemma prefix_app pat s t :
  String.prefix pat s = true -> String.prefix pat (s ++ t) = true.
Proof.
  revert s. induction pat as [|a pat IH]; intros s H.
  - apply prefix_empty.
  - destruct s as [|b s]; simpl in *; [discriminate|].
    destruct (ascii_dec a b); [now apply IH|discriminate].
Qed.

Lemma append_cancel_l s t t' : s ++ t = s ++ t' -> t = t'.
Proof.
  induction s as [|c s IH]; [trivial|].
  intros H. apply IH. now injection H.
Qed.

Lemma contains_empty s : Py.contains "" s = true.
Proof. destruct s; reflexivity. Qed.

Lemma contains_cons pat c s :
  Py.contains pat (String c s) = String.prefix pat (String c s) || Py.contains pat s.
Proof. reflexivity. Qed.

Lemma contains_app_l pat s t :
  Py.contains pat s = true -> Py.contains pat (s ++ t) = true.
Proof.
  induction s as [|c s IH]; intros H.
  - destruct pat; [apply contains_empty|discriminate].
  - change (String c s ++ t) with (String c (s ++ t)).
    rewrite contains_cons in *. apply orb_true_iff in H as [H|H].
    + apply (prefix_app _ _ t) in H. simpl in H. simpl. now rewrite H.
    + rewrite (IH H). apply orb_true_r.
Qed.

Lemma contains_app_r pat s t :
  Py.contains pat t = true -> Py.contains pat (s ++ t) = true.
Proof.
  intros H. induction s as [|c s IH]; [assumption|].
  change (String c s ++ t) with (String c (s ++ t)).
  rewrite contains_cons, IH. apply orb_true_r.
Qed.

(** [chr in s] for a one-character pattern. *)
Lemma contains_char_cons sep c s :
  Py.contains (String sep "") (String c s)
  = Ascii.eqb c sep || Py.contains (String sep "") s.
Proof.
  rewrite contains_cons. f_equal. simpl.
  destruct (ascii_dec sep c) as [->|Hne].
  - now rewrite prefix_empty, Ascii.eqb_refl.
  - symmetry. apply Ascii.eqb_neq. congruence.
Qed.

Lemma before_prefix sep s : exists t, s = before sep s ++ t.
Proof.
  induction s as [|c s [t IH]]; [now exists ""|].
  rewrite before_cons. destruct (Ascii.eqb c sep).
  - now exists (String c s).
  - exists t. change (String c s = String c (before sep s ++ t)). now f_equal.
Qed.

Lemma before_clean sep s : Py.contains (String sep "") (before sep s) = false.
Proof.
  induction s as [|c s IH]; [reflexivity|].
  rewrite before_cons. destruct (Ascii.eqb c sep) eqn:E; [reflexivity|].
  now rewrite contains_char_cons, E, IH.
Qed.

Lemma before_without sep s :
  Py.contains (String sep "") s = false -> before sep s = s.
Proof.
  induction s as [|c s IH]; [reflexivity|].
  rewrite contains_char_cons, before_cons. intros H.
  apply orb_false_iff in H as [-> H]. now rewrite IH.
Qed.

Lemma split_without sep s :
  Py.contains (String sep "") s = false -> Py.split sep s = [s].
Proof.
  induction s as [|c s IH]; [reflexivity|].
  rewrite contains_char_cons. intros H.
  apply orb_false_iff in H as [E H]. simpl. now rewrite E, (IH H).
Qed.

Lemma contains_before pat sep s :
  Py.contains pat (before sep s) = true -> Py.contains pat s = true.
Proof.
  intros H. destruct (before_prefix sep s) as [t E].
  rewrite E. now apply contains_app_l.
Qed.

Lemma after_last_clean sep s :
  Py.contains (String sep "") (after_last sep s) = false.
Proof.
  induction s as [|c s IH]; [reflexivity|].
  rewrite after_last_cons. destruct (Ascii.eqb c sep) eqn:E; [assumption|].
  destruct (Py.split sep s) as [|p [|p' ps]] eqn:Es; try assumption.
  now rewrite contains_char_cons, E, IH.
Qed.

End StringFacts.

(** ** URL normalisation *)

Lemma video_id_eq u : video_id u = before "?" (after_last "/" u).
Proof. reflexivity. Qed.

Lemma short_in_watch v :
  Py.contains "youtu.be" (watch_prefix ++ v) = Py.contains "youtu.be" v.
Proof. reflexivity. Qed.

Lemma amp_in_watch v :
  Py.contains "&" (watch_prefix ++ v) = Py.contains "&" v.
Proof. reflexivity. Qed.

Lemma normalize_long_form u :
  Py.contains "youtu.be" u = false ->
  normalize_youtube_url u = before "&" u.
Proof. unfold normalize_youtube_url. now intros ->. Qed.

Lemma normalize_short_form u :
  Py.contains "youtu.be" u = true ->
  normalize_youtube_url u = watch_prefix ++ video_id u.
Proof. unfold normalize_youtube_url. now intros ->. Qed.

(** A string without ["youtu.be"] is normalised to a fixed point. *)
Lemma normalize_long_fixed u :
  Py.contains "youtu.be" u = false ->
  normalize_youtube_url (normalize_youtube_url u) = normalize_youtube_url u.
Proof.
  intros H. rewrite (normalize_long_form u H).
  assert (Hn : Py.contains "youtu.be" (before "&" u) = false).
  { destruct (Py.contains "youtu.be" (before "&" u)) eqn:E; [|reflexivity].
    apply contains_before in E. congruence. }
  rewrite (normalize_long_form _ Hn).
  apply before_without, before_clean.
Qed.

Lemma video_id_no_slash u : Py.contains "/" (video_id u) = false.
Proof.
  rewrite video_id_eq.
  destruct (Py.contains "/" (before "?" (after_last "/" u))) eqn:E; [|reflexivity].
  apply contains_before in E. now rewrite after_last_clean in E.
Qed.

Lemma video_id_of_watch v :
  Py.contains "/" v = false -> video_id (watch_prefix ++ v) = "watch".
Proof.
  intros H. unfold video_id, watch_prefix.
  cbv beta iota fix delta [String.append]. simpl.
  rewrite (split_without _ _ H). reflexivity.
Qed.

(** C4, as the spec states it, fails: a short link whose last path segment
    carries an ampersand is normalised to a long form that still has the
    ampersand, and the second pass cuts it off. *)
Lemma normalize_not_idempotent :
  normalize_youtube_url (normalize_youtube_url "https://youtu.be/abc123&t=5")
  <> normalize_youtube_url "https://youtu.be/abc123&t=5".
Proof. discriminate. Qed.

(** C4 (amended): normalisation is idempotent on every string without
    ["youtu.be"], and on a string with ["youtu.be"] whenever the extracted
    video id contains neither ["youtu.be"] nor ["&"]. *)
Theorem normalize_idempotent_clean_id u :
  (Py.contains "youtu.be" u = true ->
   Py.contains "youtu.be" (video_id u) = false /\
   Py.contains "&" (video_id u) = false) ->
  normalize_youtube_url (normalize_youtube_url u) = normalize_youtube_url u.
Proof.
  intros H. destruct (Py.contains "youtu.be" u) eqn:E.
  - destruct (H eq_refl) as [Hs Ha].
    rewrite (normalize_short_form u E).
    rewrite normalize_long_form by now rewrite short_in_watch.
    apply before_without. now rewrite amp_in_watch.
  - now apply normalize_long_fixed.
Qed.

Lemma normalize_idempotent_clean_id_witness :
  normalize_youtube_url (normalize_youtube_url "https://youtu.be/abc123?feature=share")
  = normalize_youtube_url "https://youtu.be/abc123?feature=share".
Proof.
  apply normalize_idempotent_clean_id. intros _. split; reflexivity.
Defined.

(** The condition of the amended claim is also necessary. *)
Lemma normalize_idempotent_only_clean_id u :
  normalize_youtube_url (normalize_youtube_url u) = normalize_youtube_url u ->
  Py.contains "youtu.be" u = true ->
  Py.contains "youtu.be" (video_id u) = false /\
  Py.contains "&" (video_id u) = false.
Proof.
  intros Hid E. rewrite (normalize_short_form u E) in Hid.
  assert (Hs : Py.contains "youtu.be" (video_id u) = false).
  { destruct (Py.contains "youtu.be" (video_id u)) eqn:Hs; [|reflexivity].
    rewrite normalize_short_form in Hid by now rewrite short_in_watch.
    rewrite (video_id_of_watch _ (video_id_no_slash u)) in Hid.
    apply append_cancel_l in Hid. rewrite <- Hid in Hs. discriminate. }
  split; [assumption|].
  rewrite normalize_long_form in Hid by now rewrite short_in_watch.
  rewrite <- amp_in_watch, <- Hid. apply before_clean.
Qed.

(** ** Rounding to the nearest double *)

Lemma round_half_even_bounds num den :
  0 < den ->
  let n := round_half_even num den in
  2 * num - den <= 2 * (n * den) <= 2 * num + den
  /\ (2 * (n * den) = 2 * num + den \/ 2 * (n * den) = 2 * num - den -> Z.even n = true).
Proof.
  intros Hden n. subst n. unfold round_half_even.
  pose proof (Z.div_mod num den ltac:(lia)) as Hdm.
  pose proof (Z.mod_pos_bound num den Hden) as Hb.
  set (q := num / den) in *. set (r := num mod den) in *.
  destruct (Z.ltb_spec (2 * r) den); [split; nia|].
  destruct (Z.ltb_spec den (2 * r)); [split; nia|].
  destruct (Z.even q) eqn:E; split; try nia; intros _; [exact E|].
  now rewrite Z.add_1_r, Z.even_succ, <- Z.negb_even, E.
Qed.

Lemma nearest_even_close y :
  (y - (1 # 2) <= inject_Z (Float.nearest_even y) <= y + (1 # 2))%Q.
Proof.
  destruct y as [n d]. unfold Float.nearest_even. cbn [Qnum Qden].
  destruct (round_half_even_bounds n (Z.pos d) ltac:(lia)) as [H _].
  unfold Qle, Qminus, Qplus, Qopp, inject_Z. cbn [Qnum Qden].
  rewrite !Pos2Z.inj_mul. lia.
Qed.

Lemma inject_Z_le_half a k : (inject_Z a <= inject_Z k + (1 # 2))%Q -> a <= k.
Proof. unfold Qle, Qplus, inject_Z. cbn [Qnum Qden]. lia. Qed.

Lemma inject_Z_ge_half a k : (inject_Z k - (1 # 2) <= inject_Z a)%Q -> k <= a.
Proof. unfold Qle, Qminus, Qplus, Qopp, inject_Z. cbn [Qnum Qden]. lia. Qed.

Lemma inject_Z_lt_succ a k : (inject_Z a < inject_Z k + 1)%Q -> a <= k.
Proof. unfold Qlt, Qplus, inject_Z. cbn [Qnum Qden]. lia. Qed.

Lemma inject_Z_gt_pred a k : (inject_Z k < inject_Z a)%Q -> k + 1 <= a.
Proof. unfold Qlt, inject_Z. cbn [Qnum Qden]. lia. Qed.

(** Rounding does not pass an integer. *)
Lemma nearest_even_le y k : (y <= inject_Z k)%Q -> Float.nearest_even y <= k.
Proof.
  intros H. apply inject_Z_le_half. pose proof (nearest_even_close y). lra.
Qed.

Lemma nearest_even_ge y k : (inject_Z k <= y)%Q -> k <= Float.nearest_even y.
Proof.
  intros H. apply inject_Z_ge_half. pose proof (nearest_even_close y). lra.
Qed.

Lemma nearest_even_below_half y k :
  (y < inject_Z k + (1 # 2))%Q -> Float.nearest_even y <= k.
Proof.
  intros H. apply inject_Z_lt_succ. pose proof (nearest_even_close y). lra.
Qed.

Lemma nearest_even_above_half y k :
  (inject_Z k + (1 # 2) < y)%Q -> k + 1 <= Float.nearest_even y.
Proof.
  intros H. apply inject_Z_gt_pred. pose proof (nearest_even_close y). lra.
Qed.

Lemma nearest_even_tie y k :
  (y == inject_Z k + (1 # 2))%Q -> Z.even k = true -> Float.nearest_even y = k.
Proof.
  intros Hy Hk. pose proof (nearest_even_close y) as Hc.
  assert (Hlo : k <= Float.nearest_even y <= k + 1).
  { split; [apply inject_Z_ge_half; lra|].
    assert (H1 : (inject_Z (Float.nearest_even y) <= inject_Z k + 1)%Q) by lra.
    revert H1. unfold Qle, Qplus, inject_Z. cbn [Qnum Qden]. lia. }
  destruct (Z.eq_dec (Float.nearest_even y) k) as [|Hne]; [assumption|exfalso].
  assert (E : Float.nearest_even y = k + 1) by lia.
  destruct y as [n d]. unfold Float.nearest_even in *. cbn [Qnum Qden] in *.
  destruct (round_half_even_bounds n (Z.pos d) ltac:(lia)) as [_ He].
  unfold Qeq, Qplus, inject_Z in Hy. cbn [Qnum Qden] in Hy.
  rewrite E in He. rewrite Z.add_1_r, Z.even_succ, <- Z.negb_even, Hk in He.
  assert (false = true); [|discriminate]. apply He. left. lia.
Qed.


Lemma pow2_pos k : (0 < 2 ^ k)%Q.
Proof. now apply Qpower_0_lt. Qed.

Lemma pow2_add a b : (2 ^ (a + b) == 2 ^ a * 2 ^ b)%Q.
Proof. now apply Qpower_plus. Qed.

Lemma pow2_Z k : 0 <= k -> (inject_Z (2 ^ k) == 2 ^ k)%Q.
Proof. intros H. now rewrite Zpower_Qpower. Qed.

Lemma pow2_le a b : a <= b -> (2 ^ a <= 2 ^ b)%Q.
Proof. intros H. now apply Qpower_le_compat_l. Qed.

Lemma pow2_inv k : (2 ^ (- k) * 2 ^ k == 1)%Q.
Proof. rewrite <- pow2_add. now replace (- k + k) with 0 by lia. Qed.

Lemma inject_Z_le a b : a <= b -> (inject_Z a <= inject_Z b)%Q.
Proof. now rewrite <- Zle_Qle. Qed.

Lemma inject_Z_lt a b : a < b -> (inject_Z a < inject_Z b)%Q.
Proof. now rewrite <- Zlt_Qlt. Qed.

(** [Float.floor_log2 x] is the exponent of the binade of [x]. *)
Lemma floor_log2_spec x :
  (0 < x)%Q -> (2 ^ Float.floor_log2 x <= x)%Q /\ (x < 2 ^ (Float.floor_log2 x + 1))%Q.
Proof.
  intros Hx. unfold Float.floor_log2.
  destruct (Qle_bool 1 x) eqn:E.
  - apply Qle_bool_iff in E.
    assert (Hn : 1 <= Qfloor x).
    { rewrite <- (Qfloor_Z 1). now apply Qfloor_resp_le. }
    destruct (Z.log2_spec (Qfloor x) ltac:(lia)) as [Hlo Hhi].
    pose proof (Z.log2_nonneg (Qfloor x)) as Hl.
    split.
    + rewrite <- pow2_Z by assumption.
      apply Qle_trans with (inject_Z (Qfloor x)); [now apply inject_Z_le|apply Qfloor_le].
    + rewrite <- pow2_Z by lia.
      apply Qlt_le_trans with (inject_Z (Qfloor x + 1)); [apply Qlt_floor|].
      apply inject_Z_le. unfold Z.succ in Hhi. lia.
  - assert (Hx1 : (x < 1)%Q).
    { apply Qnot_le_lt. intros H. apply Qle_bool_iff in H. congruence. }
    assert (Hi : (0 < / x)%Q) by now apply Qinv_lt_0_compat.
    assert (Hxi : (x * / x == 1)%Q) by (apply Qmult_inv_r; lra).
    assert (Hi1 : (1 < / x)%Q) by nra.
    set (c := Qceiling (/ x)).
    assert (Hc : 1 < c).
    { pose proof (Qle_ceiling (/ x)) as H. fold c in H.
      destruct (Z_lt_le_dec 1 c) as [|Hle]; [assumption|exfalso].
      apply inject_Z_le in Hle. change (inject_Z 1) with 1%Q in Hle. lra. }
    destruct (Z.log2_up_spec c Hc) as [Hlo Hhi].
    pose proof (Z.log2_up_nonneg c) as Hu.
    assert (Hu1 : 0 < Z.log2_up c).
    { destruct (Z.eq_dec (Z.log2_up c) 0) as [E0|]; [|lia].
      rewrite E0 in Hhi. simpl in Hhi. lia. }
    set (u := Z.log2_up c) in *.
    pose proof (pow2_pos u) as Hpu. pose proof (pow2_pos (- u)) as Hpn.
    pose proof (pow2_inv u) as Hinv.
    split.
    + (* / x <= c <= 2 ^ u *)
      assert (H1 : (/ x <= 2 ^ u)%Q).
      { rewrite <- pow2_Z by assumption.
        apply Qle_trans with (inject_Z c); [apply Qle_ceiling|now apply inject_Z_le]. }
      assert (H2 : (1 <= 2 ^ u * x)%Q) by nra.
      nra.
    + replace (- u + 1) with (- (u - 1)) by lia.
      pose proof (pow2_pos (u - 1)) as Hpp. pose proof (pow2_pos (- (u - 1))) as Hpq.
      pose proof (pow2_inv (u - 1)) as Hinv'.
      assert (H1 : (2 ^ (u - 1) < / x)%Q).
      { rewrite <- pow2_Z by lia.
        apply Qle_lt_trans with (inject_Z (c - 1)); [|apply Qceiling_lt].
        apply inject_Z_le. replace (u - 1) with (Z.pred u) by lia. lia. }
      assert (H2 : (2 ^ (u - 1) * x < 1)%Q) by nra.
      nra.
Qed.

Lemma floor_log2_lt x k : (0 < x)%Q -> (x < 2 ^ k)%Q -> Float.floor_log2 x < k.
Proof.
  intros Hx Hk. destruct (floor_log2_spec x Hx) as [Hlo _].
  apply (Qpower_lt_compat_l_inv 2); [|reflexivity].
  now apply Qle_lt_trans with x.
Qed.

Lemma floor_log2_ge x k : (0 < x)%Q -> (2 ^ k <= x)%Q -> k <= Float.floor_log2 x.
Proof.
  intros Hx Hk. destruct (floor_log2_spec x Hx) as [_ Hhi].
  assert (k < Float.floor_log2 x + 1); [|lia].
  apply (Qpower_lt_compat_l_inv 2); [|reflexivity].
  now apply Qle_lt_trans with x.
Qed.

Lemma ulp_pos x : (0 < Float.ulp x)%Q.
Proof. apply pow2_pos. Qed.

Lemma round_0 x : (x == 0)%Q -> Float.round x = 0%Q.
Proof. intros H. unfold Float.round. now rewrite (Qeq_eq_bool _ _ H). Qed.

Lemma round_eq x :
  ~ (x == 0)%Q ->
  Float.round x = (inject_Z (Float.nearest_even (x / Float.ulp x)) * Float.ulp x)%Q.
Proof.
  intros H. unfold Float.round.
  destruct (Qeq_bool x 0) eqn:E; [|reflexivity].
  now apply Qeq_bool_eq in E.
Qed.

(** A double is within half a unit in the last place of what it rounds. *)
Lemma round_error x : (Qabs (Float.round x - x) <= Float.ulp x / 2)%Q.
Proof.
  pose proof (ulp_pos x) as Hu.
  unfold Qdiv. change (/ 2)%Q with (1 # 2)%Q.
  destruct (Qeq_dec x 0) as [E|E].
  - rewrite (round_0 x E). apply Qabs_Qle_condition. lra.
  - rewrite (round_eq x E).
    pose proof (nearest_even_close (x / Float.ulp x)) as [Hlo Hhi].
    assert (Hm : (x / Float.ulp x * Float.ulp x == x)%Q).
    { field. lra. }
    set (y := (x / Float.ulp x)%Q) in *.
    set (n := inject_Z (Float.nearest_even y)) in *.
    set (P := Float.ulp x) in *.
    apply Qabs_Qle_condition. split; nra.
Qed.

Lemma round_nonneg x : (0 <= x)%Q -> (0 <= Float.round x)%Q.
Proof.
  intros Hx. pose proof (ulp_pos x) as Hu.
  destruct (Qeq_dec x 0) as [E|E]; [rewrite (round_0 x E); lra|].
  rewrite (round_eq x E).
  assert (0 <= Float.nearest_even (x / Float.ulp x)).
  { apply nearest_even_ge. change (inject_Z 0) with 0%Q.
    apply Qle_shift_div_l; [assumption|lra]. }
  apply Qmult_le_0_compat; [|lra].
  change 0%Q with (inject_Z 0). now apply inject_Z_le.
Qed.

Lemma round_nonpos x : (x <= 0)%Q -> (Float.round x <= 0)%Q.
Proof.
  intros Hx. pose proof (ulp_pos x) as Hu.
  destruct (Qeq_dec x 0) as [E|E]; [rewrite (round_0 x E); lra|].
  rewrite (round_eq x E).
  assert (Float.nearest_even (x / Float.ulp x) <= 0).
  { apply nearest_even_le. change (inject_Z 0) with 0%Q.
    apply Qle_shift_div_r; [assumption|lra]. }
  assert (inject_Z (Float.nearest_even (x / Float.ulp x)) <= 0)%Q.
  { change 0%Q with (inject_Z 0). now apply inject_Z_le. }
  nra.
Qed.

Lemma floor_log2_abs_lt x k :
  (0 < x)%Q -> (x < 2 ^ k)%Q -> Float.floor_log2 (Qabs x) < k.
Proof.
  intros Hx Hk. assert (E : (Qabs x == x)%Q) by (apply Qabs_pos; lra).
  apply floor_log2_lt; rewrite E; assumption.
Qed.

Lemma floor_log2_abs_ge x k :
  (0 < x)%Q -> (2 ^ k <= x)%Q -> k <= Float.floor_log2 (Qabs x).
Proof.
  intros Hx Hk. assert (E : (Qabs x == x)%Q) by (apply Qabs_pos; lra).
  apply floor_log2_ge; rewrite E; assumption.
Qed.

(** Below [2 ^ k] the rounding error is at most [2 ^ (k - 54)]. *)
Lemma round_error_below x k :
  (0 <= x)%Q -> (x < 2 ^ k)%Q -> Float.emin < k ->
  (Qabs (Float.round x - x) <= 2 ^ (k - 54))%Q.
Proof.
  intros Hx Hk Hmin.
  destruct (Qeq_dec x 0) as [E|E].
  - rewrite (round_0 x E). pose proof (pow2_pos (k - 54)).
    apply Qabs_Qle_condition. lra.
  - assert (Hpos : (0 < x)%Q) by lra.
    pose proof (round_error x) as He.
    unfold Qdiv in He. change (/ 2)%Q with (1 # 2)%Q in He.
    pose proof (floor_log2_abs_lt x k Hpos Hk) as Hfl.
    assert (Hu : (Float.ulp x <= 2 ^ (k - 53))%Q).
    { unfold Float.ulp. apply pow2_le. lia. }
    assert (Hh : (2 ^ (k - 53) == 2 * 2 ^ (k - 54))%Q).
    { replace (k - 53) with (1 + (k - 54)) by lia. now rewrite pow2_add. }
    lra.
Qed.


Lemma nearest_even_integer y n :
  (y == inject_Z n)%Q -> Float.nearest_even y = n.
Proof.
  intros H. apply Z.le_antisymm.
  - apply nearest_even_le. rewrite H. apply Qle_refl.
  - apply nearest_even_ge. rewrite H. apply Qle_refl.
Qed.

(** A positive integer below [2 ^ 53], scaled by a power of two that is
    not below the smallest subnormal, is a double: rounding leaves it. *)
Lemma round_exact x m k :
  (x == inject_Z m * 2 ^ k)%Q -> 0 < m < 2 ^ 53 -> Float.emin - 52 <= k ->
  (Float.round x == x)%Q.
Proof.
  intros Hx [Hm0 Hm] Hk.
  pose proof (pow2_pos k) as Hpk.
  assert (Hmq : (0 < inject_Z m)%Q).
  { change 0%Q with (inject_Z 0). now apply inject_Z_lt. }
  assert (Hmq' : (inject_Z m < 2 ^ 53)%Q).
  { rewrite <- pow2_Z by lia. now apply inject_Z_lt. }
  assert (Hpos : (0 < x)%Q) by (rewrite Hx; nra).
  rewrite round_eq by lra.
  set (s := Z.max (Float.floor_log2 (Qabs x)) Float.emin - 52).
  assert (Hu : Float.ulp x = (2 ^ s)%Q) by reflexivity.
  rewrite Hu.
  assert (Hs : s <= k).
  { assert (Float.floor_log2 (Qabs x) < k + 53); [|lia].
    apply floor_log2_abs_lt; [assumption|].
    rewrite Hx, Z.add_comm, pow2_add. nra. }
  pose proof (pow2_pos s) as Hps.
  assert (Hsplit : (2 ^ k == 2 ^ (k - s) * 2 ^ s)%Q).
  { rewrite <- pow2_add. now replace (k - s + s) with k by lia. }
  assert (Hn : (x / 2 ^ s == inject_Z (m * 2 ^ (k - s)))%Q).
  { rewrite inject_Z_mult, pow2_Z by lia. rewrite Hx, Hsplit. field. lra. }
  rewrite (nearest_even_integer _ _ Hn).
  rewrite inject_Z_mult, pow2_Z by lia. rewrite Hx, Hsplit. ring.
Qed.

(** Around [CACHE_EXPIRY] two neighbouring doubles are [2 ^ -41] apart:
    the difference the sweep computes exceeds 3600 exactly when the exact
    difference exceeds 3600 by more than half of that. *)
Lemma round_le_3600 x :
  (x <= 3600 + (1 # 4398046511104))%Q -> (Float.round x <= 3600)%Q.
Proof.
  intros H.
  destruct (Qlt_le_dec 0 x) as [Hpos|Hnp];
    [|pose proof (round_nonpos x Hnp); lra].
  rewrite round_eq by lra.
  assert (Hlt : Float.floor_log2 (Qabs x) < 12).
  { apply floor_log2_abs_lt; [assumption|]. change (2 ^ 12)%Q with 4096%Q. lra. }
  destruct (Qlt_le_dec 3600 x) as [Hbig|Hsmall].
  - assert (Hge : 11 <= Float.floor_log2 (Qabs x)).
    { apply floor_log2_abs_ge; [assumption|]. change (2 ^ 11)%Q with 2048%Q. lra. }
    assert (Hu : Float.ulp x = (1 # 2199023255552)%Q).
    { unfold Float.ulp. replace (Float.floor_log2 (Qabs x)) with 11 by lia. reflexivity. }
    rewrite Hu.
    set (K := 7916483719987200).
    assert (Hy : (x / (1 # 2199023255552) <= inject_Z K + (1 # 2))%Q).
    { apply Qle_shift_div_r; [reflexivity|].
      subst K. unfold inject_Z. lra. }
    assert (HN : Float.nearest_even (x / (1 # 2199023255552)) <= K).
    { destruct (Qle_lt_or_eq _ _ Hy) as [Hs|He].
      - now apply nearest_even_below_half.
      - rewrite (nearest_even_tie _ K He); [lia|reflexivity]. }
    apply inject_Z_le in HN. subst K. unfold inject_Z at 2 in HN. lra.
  - set (s := Z.max (Float.floor_log2 (Qabs x)) Float.emin - 52).
    assert (Hs : s <= 0) by (unfold Float.emin in *; lia).
    assert (Hu : Float.ulp x = (2 ^ s)%Q) by reflexivity.
    rewrite Hu.
    pose proof (pow2_pos s) as Hp. pose proof (pow2_pos (- s)) as Hq.
    pose proof (pow2_inv s) as Hinv.
    set (K := 3600 * 2 ^ (- s)).
    assert (HK : (inject_Z K == 3600 * 2 ^ (- s))%Q).
    { subst K. rewrite inject_Z_mult, pow2_Z by lia. reflexivity. }
    assert (HN : Float.nearest_even (x / 2 ^ s) <= K).
    { apply nearest_even_le. apply Qle_shift_div_r; [assumption|].
      rewrite HK. nra. }
    apply inject_Z_le in HN. nra.
Qed.

Lemma round_gt_3600 x :
  (3600 + (1 # 4398046511104) < x)%Q -> (3600 < Float.round x)%Q.
Proof.
  intros H.
  assert (Hpos : (0 < x)%Q) by lra.
  destruct (Qlt_le_dec x 4096) as [Hsmall|Hbig].
  - rewrite round_eq by lra.
    assert (Hlt : Float.floor_log2 (Qabs x) < 12).
    { apply floor_log2_abs_lt; [assumption|]. change (2 ^ 12)%Q with 4096%Q. lra. }
    assert (Hge : 11 <= Float.floor_log2 (Qabs x)).
    { apply floor_log2_abs_ge; [assumption|]. change (2 ^ 11)%Q with 2048%Q. lra. }
    assert (Hu : Float.ulp x = (1 # 2199023255552)%Q).
    { unfold Float.ulp. replace (Float.floor_log2 (Qabs x)) with 11 by lia. reflexivity. }
    rewrite Hu.
    set (K := 7916483719987200).
    assert (Hy : (inject_Z K + (1 # 2) < x / (1 # 2199023255552))%Q).
    { apply Qlt_shift_div_l; [reflexivity|].
      subst K. unfold inject_Z. lra. }
    apply nearest_even_above_half in Hy.
    apply inject_Z_le in Hy. rewrite inject_Z_plus in Hy.
    subst K. unfold inject_Z at 1 2 in Hy. lra.
  - pose proof (round_error x) as He.
    unfold Qdiv in He. change (/ 2)%Q with (1 # 2)%Q in He.
    apply Qabs_Qle_condition in He.
    assert (Hge : 12 <= Float.floor_log2 (Qabs x)).
    { apply floor_log2_abs_ge; [assumption|]. change (2 ^ 12)%Q with 4096%Q. lra. }
    assert (Hlo : (2 ^ Float.floor_log2 (Qabs x) <= x)%Q).
    { assert (E : (Qabs x == x)%Q) by (apply Qabs_pos; lra).
      rewrite <- E at 2. apply floor_log2_spec. rewrite E. assumption. }
    assert (Hu : (Float.ulp x == 2 ^ Float.floor_log2 (Qabs x) * (1 # 4503599627370496))%Q).
    { unfold Float.ulp. rewrite Z.max_l by (unfold Float.emin; lia).
      unfold Z.sub. rewrite pow2_add. reflexivity. }
    pose proof (pow2_pos (Float.floor_log2 (Qabs x))) as Hp.
    set (A := (2 ^ Float.floor_log2 (Qabs x))%Q) in *.
    lra.
Qed.

(** ** The session store and the sweep *)

Lemma lookup_pop_all users (ud : gmap Z entry) (u : Z) :
  pop_all users ud !! u = if decide (u ∈ users) then None else ud !! u.
Proof.
  unfold pop_all. revert ud. induction users as [|x users IH]; intros ud; cbn [foldl].
  - destruct (decide (u ∈ [])) as [H|_]; [|reflexivity]. now apply elem_of_nil in H.
  - rewrite IH. destruct (decide (u ∈ users)) as [Hin|Hnin].
    + rewrite decide_True by (apply elem_of_cons; now right). reflexivity.
    + destruct (decide (u = x)) as [->|Hne].
      * rewrite lookup_delete_eq, decide_True by (apply elem_of_cons; now left).
        reflexivity.
      * rewrite lookup_delete_ne by congruence.
        rewrite decide_False; [reflexivity|].
        intros [?|?]%elem_of_cons; contradiction.
Qed.

Lemma elem_of_expired_users now (ud : gmap Z entry) (u : Z) :
  u ∈ expired_users now ud <-> exists d, ud !! u = Some d /\ expired now d.
Proof.
  unfold expired_users. split.
  - intros H. apply list_elem_of_In, in_map_iff in H as [[u' d] [<- H]].
    apply list_elem_of_In, list_elem_of_filter in H as [He Hm].
    apply elem_of_map_to_list in Hm. now exists d.
  - intros [d [Hm He]]. apply list_elem_of_In, in_map_iff.
    exists (u, d). split; [reflexivity|].
    apply list_elem_of_In, list_elem_of_filter. split; [assumption|].
    now apply elem_of_map_to_list.
Qed.

(** What one pass leaves in the dictionary. *)
Lemma sweep_lookup now (ud : gmap Z entry) (u : Z) :
  pop_all (expired_users now ud) ud !! u =
  match ud !! u with
  | Some d => if decide (expired now d) then None else Some d
  | None => None
  end.
Proof.
  rewrite lookup_pop_all. case_decide as H.
  - apply elem_of_expired_users in H as [d [-> He]]. now rewrite decide_True.
  - destruct (ud !! u) as [d|] eqn:E; [|reflexivity].
    case_decide as He; [|reflexivity].
    exfalso. apply H, elem_of_expired_users. now exists d.
Qed.

Lemma cleanup_pass_run env w :
  cleanup_pass env w =
  (Ok tt,
   record (Sleep 3600)
     (bump (with_user_data
              (pop_all (expired_users (clock env (calls w)) (user_data w)) (user_data w))
              (bump w)))).
Proof. reflexivity. Qed.

Lemma half_ulp_expiry_value : half_ulp_expiry = (1 # 4398046511104)%Q.
Proof. reflexivity. Qed.

(** The test of the comprehension, in exact terms. *)
Lemma expired_iff now d :
  expired now d <-> (CACHE_EXPIRY + half_ulp_expiry < now - timestamp d)%Q.
Proof.
  unfold expired, Float.sub, CACHE_EXPIRY. rewrite half_ulp_expiry_value. split.
  - intros H. apply Qnot_le_lt. intros Hle.
    apply round_le_3600 in Hle. lra.
  - apply round_gt_3600.
Qed.



(** ** Reasoning about handler runs *)

Section Keeps.

Context (I : world -> Prop).

Lemma keeps_ret {A} (a : A) : keeps I (ret a).
Proof. intros w H. exact H. Qed.

Lemma keeps_raise {A} e : keeps I (@raise A e).
Proof. intros w H. exact H. Qed.

Lemma keeps_bind {A B} (m : M A) (k : A -> M B) :
  keeps I m -> (forall a, keeps I (k a)) -> keeps I (bind m k).
Proof.
  intros Hm Hk w H. unfold bind. specialize (Hm w H).
  destruct (m w) as [[a|e] w']; [now apply Hk|exact Hm].
Qed.

Lemma keeps_try_except {A} (body : M A) handler :
  keeps I body -> (forall e, keeps I (handler e)) -> keeps I (try_except body handler).
Proof.
  intros Hb Hh w H. unfold try_except. specialize (Hb w H).
  destruct (body w) as [[a|e] w']; [exact Hb|now apply Hh].
Qed.

Lemma keeps_try_finally {A} (body : M A) fin :
  keeps I body -> keeps I fin -> keeps I (try_finally body fin).
Proof.
  intros Hb Hf w H. unfold try_finally. specialize (Hb w H).
  destruct (body w) as [r w']. specialize (Hf w' Hb).
  destruct (fin w') as [[[]|e] w'']; exact Hf.
Qed.

Lemma keeps_or_raise {A} (o : option A) e : keeps I (or_raise o e).
Proof. destruct o; [apply keeps_ret|apply keeps_raise]. Qed.

Lemma keeps_if {A} (b : bool) (m1 m2 : M A) :
  keeps I m1 -> keeps I m2 -> keeps I (if b then m1 else m2).
Proof. now destruct b. Qed.

End Keeps.

(** Whatever the body did, the world after [try ... finally] is one that
    the [finally] block has just left. *)
Lemma try_finally_post {A} (body : M A) fin (Q : world -> Prop) :
  (forall w, Q (snd (fin w))) -> forall w, Q (snd (try_finally body fin w)).
Proof.
  intros H w. unfold try_finally. destruct (body w) as [r w'].
  specialize (H w'). destruct (fin w') as [[[]|e] w'']; exact H.
Qed.

(** ** The downloaded file *)

Lemma download_cleanup_removes p w :
  files (snd (download_cleanup p w)) !! p = None.
Proof.
  unfold download_cleanup, bind, os_path_exists, os_remove.
  case_bool_decide as H.
  - destruct H as [sz H]. rewrite H. apply lookup_delete_eq.
  - now apply eq_None_not_Some.
Qed.

Lemma download_video_run env u res q w :
  download_video env u res q w =
  let file_path := artifact_path (chat_id q) (clock env (calls w)) in
  try_finally
    (try_except (download_body env u res file_path) (download_failed env))
    (download_cleanup file_path) (bump w).
Proof. reflexivity. Qed.

(** The [finally] block decides what is left of the output file. *)
Lemma artifact_gone env u res q w :
  files (snd (download_video env u res q w))
    !! artifact_path (chat_id q) (clock env (calls w)) = None.
Proof.
  rewrite download_video_run. cbv zeta.
  apply (try_finally_post _ _
           (fun w' => files w' !! artifact_path (chat_id q) (clock env (calls w)) = None)).
  apply download_cleanup_removes.
Qed.

(** C2: when [download_video] ends, by whichever path and with whichever
    outcome (normal return or an exception that leaves the [except]
    block), its output file does not exist. *)
Theorem download_video_removes_artifact env u res q w :
  let file_path := artifact_path (chat_id q) (clock env (calls w)) in
  let w' := snd (download_video env u res q w) in
  files w' !! file_path = None.
Proof.
  intros file_path w'. subst w'.
  rewrite download_video_run. fold file_path. cbv zeta.
  generalize (bump w).
  apply (try_finally_post
           (try_except (download_body env u res file_path) (download_failed env))
           (download_cleanup file_path)
           (fun w1 => files w1 !! file_path = None)).
  intros w1. unfold download_cleanup, bind, os_path_exists, os_remove.
  destruct (files w1 !! file_path) as [sz|] eqn:E.
  - rewrite bool_decide_true by eauto. rewrite E. apply lookup_delete_eq.
  - rewrite bool_decide_false by (intros [? ?]; discriminate). exact E.
Qed.

(** The body of the [try] block, path by path. *)
Lemma download_body_run env u res p w :
  download_body env u res p w =
  let '(fs, r) := ydl_download env (S (calls w)) (download_opts res p) u (files w) in
  let w2 := after_ydl u res p fs w in
  match r with
  | Some e => (Raise e, w2)
  | None =>
      match fs !! p with
      | None => (Raise (FileNotFoundError "Download failed - no output file"), w2)
      | Some sz =>
          if (MAX_TELEGRAM_FILE_SIZE <? sz)%Z
          then (Raise (ValueError (too_large_text sz)), w2)
          else upload env p w2
      end
  end.
Proof.
  unfold download_body, bind, time_time, ydl_download_call, after_ydl. cbn [calls bump files].
  destruct (ydl_download env (S (calls w)) (download_opts res p) u (files w)) as [fs [e|]];
    [reflexivity|].
  unfold os_path_exists, os_path_getsize. cbn [files with_files].
  destruct (fs !! p) as [sz|] eqn:E.
  - rewrite bool_decide_true by eauto. cbn [negb files with_files]. rewrite E.
    destruct (MAX_TELEGRAM_FILE_SIZE <? sz)%Z; reflexivity.
  - rewrite bool_decide_false by (intros [? ?]; discriminate). reflexivity.
Qed.

Lemma download_failed_run env e w :
  download_failed env e w =
  reply_text env ("❌ Download failed: " ++ exn_str e) None
    (record (LogError ("Download error: " ++ exn_str e)) w).
Proof. reflexivity. Qed.

Lemma reply_text_trace env text kb w :
  trace (snd (reply_text env text kb w)) = ReplyText text kb :: trace w.
Proof.
  unfold reply_text, chat_call. now destruct (chat env (calls w) _).
Qed.

Lemma reply_text_files env text kb w :
  files (snd (reply_text env text kb w)) = files w.
Proof.
  unfold reply_text, chat_call. now destruct (chat env (calls w) _).
Qed.

Lemma download_cleanup_trace p w : trace (snd (download_cleanup p w)) = trace w.
Proof.
  unfold download_cleanup, bind, os_path_exists, os_remove.
  case_bool_decide as H; [|reflexivity].
  destruct H as [sz H]. now rewrite H.
Qed.

Lemma try_finally_trace {A} (body : M A) p w :
  trace (snd (try_finally body (download_cleanup p) w)) = trace (snd (body w)).
Proof.
  unfold try_finally. destruct (body w) as [r w'].
  pose proof (download_cleanup_trace p w') as H.
  destruct (download_cleanup p w') as [[[]|e] w'']; exact H.
Qed.

(** What the user is told when the [try] block of [download_video] raises
    [e]: the fixed prefix and [str(e)]. *)
Lemma download_video_failure_trace env u res q w e w1 :
  download_body env u res (artifact_path (chat_id q) (clock env (calls w))) (bump w)
    = (Raise e, w1) ->
  trace (snd (download_video env u res q w)) =
    ReplyText ("❌ Download failed: " ++ exn_str e) None
    :: LogError ("Download error: " ++ exn_str e) :: trace w1.
Proof.
  intros H. rewrite download_video_run. cbv zeta. rewrite try_finally_trace.
  unfold try_except. rewrite H, download_failed_run. now rewrite reply_text_trace.
Qed.

(** ** The size limit *)

(** The number printed is the nearest hundredth. *)
Lemma round_half_even_nearest num den :
  0 < den ->
  let n := round_half_even num den in
  Z.abs (2 * (n * den - num)) <= den.
Proof.
  intros Hden n. subst n. unfold round_half_even.
  pose proof (Z.div_mod num den ltac:(lia)) as Hdm.
  pose proof (Z.mod_pos_bound num den Hden) as Hb.
  set (q := num / den) in *. set (r := num mod den) in *.
  destruct (Z.ltb_spec (2 * r) den); [nia|].
  destruct (Z.ltb_spec den (2 * r)); [nia|].
  destruct (Z.even q); nia.
Qed.

(** The text for two sizes, the second above [2 ^ 53] bytes, where the
    conversion of the size to a double rounds. *)
Example too_large_text_examples :
  too_large_text 3000000000 = "File too large (2861.02MB > 2000MB)"
  /\ too_large_text 2097152001 = "File too large (2000.00MB > 2000MB)"
  /\ too_large_text 9007199288206295 = "File too large (8589934623.92MB > 2000MB)".
Proof. repeat split; vm_compute; reflexivity. Qed.

(** The number of hundredths printed is within a hundredth of a megabyte
    of the size, for every size a file can have. *)
Lemma too_large_hundredths sz :
  0 <= sz < 2 ^ 63 ->
  let mb := Float.div (Float.div (inject_Z sz) 1024) 1024 in
  (Qabs (inject_Z (round_half_even (100 * Qnum mb) (Z.pos (Qden mb))) / 100
         - inject_Z sz / 1048576) <= 1 # 100)%Q.
Proof.
  intros [H0 H63] mb. subst mb. unfold Float.div.
  apply inject_Z_le in H0. apply inject_Z_lt in H63.
  change (inject_Z 0) with 0%Q in H0.
  change (inject_Z (2 ^ 63)) with 9223372036854775808%Q in H63.
  assert (Hx1 : (inject_Z sz / 1024 == inject_Z sz * (1 # 1024))%Q) by reflexivity.
  set (x1 := (inject_Z sz / 1024)%Q) in *. clearbody x1.
  assert (Hy : (Qabs (Float.round x1 - x1) <= 1 # 2)%Q).
  { apply (round_error_below x1 53); [lra| |reflexivity].
    change (2 ^ 53)%Q with 9007199254740992%Q. lra. }
  apply Qabs_Qle_condition in Hy.
  assert (Hy0 : (0 <= Float.round x1)%Q) by (apply round_nonneg; lra).
  set (y := Float.round x1) in *. clearbody y.
  assert (Hx2 : (y / 1024 == y * (1 # 1024))%Q) by reflexivity.
  set (x2 := (y / 1024)%Q) in *. clearbody x2.
  assert (Hmb : (Qabs (Float.round x2 - x2) <= 1 # 1024)%Q).
  { apply (round_error_below x2 44); [lra| |reflexivity].
    change (2 ^ 44)%Q with 17592186044416%Q. lra. }
  apply Qabs_Qle_condition in Hmb.
  set (mb := Float.round x2) in *. clearbody mb.
  pose proof (nearest_even_close (100 * mb)) as Hh.
  change (Float.nearest_even (100 * mb))
    with (round_half_even (100 * Qnum mb) (Z.pos (Qden mb))) in Hh.
  set (h := inject_Z (round_half_even (100 * Qnum mb) (Z.pos (Qden mb)))) in *.
  clearbody h.
  apply Qabs_Qle_condition. unfold Qdiv.
  change (/ 100)%Q with (1 # 100)%Q. change (/ 1048576)%Q with (1 # 1048576)%Q.
  lra.
Qed.

(** Below [2 ^ 53] bytes both divisions are exact, and the number printed
    is the hundredth of a megabyte nearest to the size, the even one of
    two equally near. *)
Lemma too_large_megabytes_exact sz :
  0 < sz < 2 ^ 53 ->
  (Float.div (Float.div (inject_Z sz) 1024) 1024 == inject_Z sz * (1 # 1048576))%Q.
Proof.
  intros Hsz. unfold Float.div.
  assert (H1 : (Float.round (inject_Z sz / 1024) == inject_Z sz / 1024)%Q).
  { apply (round_exact _ sz (-10)); [reflexivity|assumption|discriminate]. }
  assert (H2 : (Float.round (inject_Z sz / 1024) / 1024 == inject_Z sz * 2 ^ (-20))%Q).
  { rewrite H1. change (2 ^ (-20))%Q with (1 # 1048576)%Q. unfold Qdiv.
    change (/ 1024)%Q with (1 # 1024)%Q. ring. }
  rewrite (round_exact _ sz (-20) H2 Hsz); [exact H2|discriminate].
Qed.

Lemma too_large_hundredths_exact sz :
  0 < sz < 2 ^ 53 ->
  let mb := Float.div (Float.div (inject_Z sz) 1024) 1024 in
  let h := round_half_even (100 * Qnum mb) (Z.pos (Qden mb)) in
  Z.abs (2 * (h * 1048576 - 100 * sz)) <= 1048576
  /\ (Z.abs (2 * (h * 1048576 - 100 * sz)) = 1048576 -> Z.even h = true).
Proof.
  intros Hsz mb h. pose proof (too_large_megabytes_exact sz Hsz) as E.
  fold mb in E. subst h.
  destruct (round_half_even_bounds (100 * Qnum mb) (Z.pos (Qden mb)) ltac:(lia))
    as [Hb He].
  set (h := round_half_even (100 * Qnum mb) (Z.pos (Qden mb))) in *. clearbody h.
  unfold Qeq, Qmult, inject_Z in E. cbn [Qnum Qden] in E.
  rewrite Z.mul_1_r, Pos.mul_1_l in E.
  set (n := Qnum mb) in *. set (d := Z.pos (Qden mb)) in *.
  assert (Hd : 0 < d) by (subst d; lia). clearbody n d. clear mb.
  assert (Hz : (h * 1048576 - 100 * sz) * d = 1048576 * (h * d - 100 * n)) by lia.
  set (z := h * 1048576 - 100 * sz) in *. clearbody z.
  set (a := h * d) in *. clearbody a.
  split.
  - nia.
  - intros Ht. apply He. nia.
Qed.

(** C6: when [ydl.download] returns and the output file is larger than
    [MAX_TELEGRAM_FILE_SIZE], the user is sent the failure text with the
    measured size in megabytes, always printed with two decimals and in
    the same unit, and the file is gone when [download_video] ends.  The
    number printed is at most a hundredth of a megabyte from the size of
    the file; below [2 ^ 53] bytes it is the hundredth nearest to the size
    (the even one of two equally near).  [sz] is an [st_size], so it is
    below [2 ^ 63]. *)
Theorem oversize_download_reported_and_removed env u res q w fs sz :
  let file_path := artifact_path (chat_id q) (clock env (calls w)) in
  ydl_download env (S (S (calls w))) (download_opts res file_path) u (files w) = (fs, None) ->
  fs !! file_path = Some sz ->
  MAX_TELEGRAM_FILE_SIZE < sz ->
  sz < 2 ^ 63 ->
  let w' := snd (download_video env u res q w) in
  exists hundredths : Z,
    let size_text :=
      Py.str (hundredths / 100) ++ "."
      ++ (if (hundredths mod 100 <? 10)%Z then "0" else "")
      ++ Py.str (hundredths mod 100) in
    (Qabs (inject_Z hundredths / 100 - inject_Z sz / 1048576) <= 1 # 100)%Q
    /\ (sz < 2 ^ 53 ->
        Z.abs (2 * (hundredths * 1048576 - 100 * sz)) <= 1048576
        /\ (Z.abs (2 * (hundredths * 1048576 - 100 * sz)) = 1048576 ->
            Z.even hundredths = true))
    /\ trace w' =
       ReplyText ("❌ Download failed: File too large ("
                  ++ size_text ++ "MB > 2000MB)") None
       :: LogError ("Download error: File too large ("
                    ++ size_text ++ "MB > 2000MB)")
       :: YdlDownload (download_opts res file_path) u
       :: trace w
    /\ files w' !! file_path = None.
Proof.
  intros file_path Hy Hsz Hbig H63 w'.
  set (mb := Float.div (Float.div (inject_Z sz) 1024) 1024).
  exists (round_half_even (100 * Qnum mb) (Z.pos (Qden mb))).
  assert (Hpos : 0 < sz) by (unfold MAX_TELEGRAM_FILE_SIZE in Hbig; lia).
  split; [|split; [|split]].
  - apply too_large_hundredths. lia.
  - intros H53. apply too_large_hundredths_exact. lia.
  - subst w'.
    rewrite (download_video_failure_trace env u res q w
               (ValueError (too_large_text sz))
               (after_ydl u res file_path fs (bump w))); [reflexivity|].
    rewrite download_body_run. cbn [calls bump files]. fold file_path.
    rewrite Hy, Hsz. cbv zeta.
    now rewrite (proj2 (Z.ltb_lt _ _) Hbig).
  - apply artifact_gone.
Qed.

Lemma oversize_download_reported_and_removed_witness :
  let w' := snd (download_video (env_writing 3000000000) sample_url "720"
                   sample_query empty_world) in
  exists hundredths : Z,
    let size_text :=
      Py.str (hundredths / 100) ++ "."
      ++ (if (hundredths mod 100 <? 10)%Z then "0" else "")
      ++ Py.str (hundredths mod 100) in
    (Qabs (inject_Z hundredths / 100 - inject_Z 3000000000 / 1048576) <= 1 # 100)%Q
    /\ (3000000000 < 2 ^ 53 ->
        Z.abs (2 * (hundredths * 1048576 - 100 * 3000000000)) <= 1048576
        /\ (Z.abs (2 * (hundredths * 1048576 - 100 * 3000000000)) = 1048576 ->
            Z.even hundredths = true))
    /\ trace w' =
       [ReplyText ("❌ Download failed: File too large ("
                   ++ size_text ++ "MB > 2000MB)") None;
        LogError ("Download error: File too large ("
                  ++ size_text ++ "MB > 2000MB)");
        YdlDownload (download_opts "720" "download_7_1700000000.mp4") sample_url]
    /\ files w' !! "download_7_1700000000.mp4" = None.
Proof.
  apply (oversize_download_reported_and_removed (env_writing 3000000000)
           sample_url "720" sample_query empty_world
           (<["download_7_1700000000.mp4" := 3000000000]> ∅) 3000000000).
  - reflexivity.
  - reflexivity.
  - reflexivity.
  - reflexivity.
Defined.

(** The same run, with the text in full. *)
Example oversize_download_run :
  trace (snd (download_video (env_writing 3000000000) sample_url "720"
                sample_query empty_world)) =
  [ReplyText "❌ Download failed: File too large (2861.02MB > 2000MB)" None;
   LogError "Download error: File too large (2861.02MB > 2000MB)";
   YdlDownload (download_opts "720" "download_7_1700000000.mp4") sample_url].
Proof. vm_compute. reflexivity. Qed.

(** ** Failure messages of [download_video] *)

Lemma chat_call_raises env ev w e w1 :
  chat_call env ev w = (Raise e, w1) -> chat env (calls w) ev = Some e.
Proof.
  unfold chat_call. destruct (chat env (calls w) ev); intros H; now inversion H.
Qed.

Lemma bind_raises {A B} (m : M A) (k : A -> M B) w e w1 :
  bind m k w = (Raise e, w1) ->
  m w = (Raise e, w1) \/ exists a w', m w = (Ok a, w') /\ k a w' = (Raise e, w1).
Proof.
  unfold bind. destruct (m w) as [[a|e'] w']; intros H.
  - right. now exists a, w'.
  - left. now inversion H.
Qed.

Lemma upload_raises env p w e w1 :
  upload env p w = (Raise e, w1) -> exists n ev, chat env n ev = Some e.
Proof.
  unfold upload, reply_text, reply_video. intros H.
  apply bind_raises in H as [H|(? & w2 & _ & H)];
    [apply chat_call_raises in H; eauto|].
  apply bind_raises in H as [H|(? & w3 & _ & H)];
    apply chat_call_raises in H; eauto.
Qed.

Lemma download_body_fault env u res p w e w1 :
  download_body env u res p w = (Raise e, w1) -> fault_origin env u e.
Proof.
  rewrite download_body_run.
  destruct (ydl_download env (S (calls w)) (download_opts res p) u (files w))
    as [fs [e'|]] eqn:Hy; cbv zeta.
  - intros H. inversion H; subst. eapply resolver_fault, Hy.
  - destruct (fs !! p) as [sz|].
    + destruct (Z.ltb_spec MAX_TELEGRAM_FILE_SIZE sz) as [Hlt|_]; intros H.
      * inversion H; subst. now apply file_too_large.
      * apply upload_raises in H as (n & ev & H). eapply transport_fault, H.
    + intros H. inversion H; subst. apply no_output_file.
Qed.

(** C7, as the spec states it, fails: the text of the resolver's exception
    is sent to the user as it is, after a fixed prefix. *)
Lemma failure_reply_shows_raw_fault :
  let raw := "ERROR: [youtube] abc123: Video unavailable" in
  ydl_download env_unavailable 2
    (download_opts "720" "download_7_1700000000.mp4") sample_url ∅
    = (∅, Some (External raw))
  /\ head (trace (snd (download_video env_unavailable sample_url "720"
                         sample_query empty_world)))
     = Some (ReplyText ("❌ Download failed: " ++ raw) None)
  /\ Py.contains raw ("❌ Download failed: " ++ raw) = true.
Proof. repeat split. Qed.

(** C7 (amended): on every path on which the [try] block of
    [download_video] raises, the user is sent ["❌ Download failed: "]
    followed by [str(e)] of the exception: a text of the program for its
    own two faults, the text of the resolver's or the transport's exception
    otherwise. *)
Theorem failure_reply_is_fault_text env u res q w e w1 :
  download_body env u res (artifact_path (chat_id q) (clock env (calls w))) (bump w)
    = (Raise e, w1) ->
  trace (snd (download_video env u res q w)) =
    ReplyText ("❌ Download failed: " ++ exn_str e) None
    :: LogError ("Download error: " ++ exn_str e) :: trace w1
  /\ fault_origin env u e.
Proof.
  intros H. split.
  - now apply download_video_failure_trace.
  - eapply download_body_fault, H.
Qed.

Lemma failure_reply_is_fault_text_witness :
  trace (snd (download_video env_unavailable sample_url "720" sample_query empty_world)) =
    [ReplyText "❌ Download failed: ERROR: [youtube] abc123: Video unavailable" None;
     LogError "Download error: ERROR: [youtube] abc123: Video unavailable";
     YdlDownload (download_opts "720" "download_7_1700000000.mp4") sample_url]
  /\ fault_origin env_unavailable sample_url
       (External "ERROR: [youtube] abc123: Video unavailable").
Proof.
  apply (failure_reply_is_fault_text env_unavailable sample_url "720" sample_query
           empty_world (External "ERROR: [youtube] abc123: Video unavailable")
           (after_ydl sample_url "720" "download_7_1700000000.mp4" ∅ (bump empty_world))).
  reflexivity.
Defined.

(** ** Quality selection *)

Lemma prefix_true_app pat s :
  String.prefix pat s = true -> exists t, s = pat ++ t.
Proof.
  revert s. induction pat as [|a pat IH]; intros s H.
  - now exists s.
  - destruct s as [|b s]; simpl in H; [discriminate|].
    destruct (ascii_dec a b) as [->|]; [|discriminate].
    destruct (IH s H) as [t ->]. now exists t.
Qed.

(** [data.split("_")[1]] of a payload that starts with ["quality_"] is what
    follows, up to the next underscore: there is no [IndexError]. *)
Lemma quality_of_payload t :
  Py.second (Py.split "_" ("quality_" ++ t)) = Some (before "_" t).
Proof.
  unfold before, Py.second, Py.first.
  cbv beta iota fix delta [String.append]. simpl.
  destruct (Py.split "_" t) eqn:E; [now apply split_nonempty in E|reflexivity].
Qed.

Lemma quality_not_enter_link t : String.eqb ("quality_" ++ t) "enter_link" = false.
Proof. reflexivity. Qed.

Lemma quality_prefix t : String.prefix "quality_" ("quality_" ++ t) = true.
Proof. cbv beta iota fix delta [String.append]. simpl. apply prefix_empty. Qed.

Lemma chat_call_user_data env ev w :
  user_data (snd (chat_call env ev w)) = user_data w.
Proof. unfold chat_call. now destruct (chat env (calls w) ev). Qed.

(** The two branches of [button_handler] on a quality payload, as one
    equation: which branch runs is decided by the presence of the key in
    [user_data] and by nothing else. *)
Lemma button_handler_quality env q t w :
  data q = "quality_" ++ t ->
  button_handler env q w =
  (query_answer env ;;
   match user_data w !! chat_id q with
   | Some d =>
       chat_call env (downloading_reply (before "_" t)) ;;
       download_video env (url d) (before "_" t) q
   | None => chat_call env session_expired_reply
   end)%handler w.
Proof.
  intros Hd. unfold button_handler. rewrite Hd, quality_not_enter_link, quality_prefix.
  cbv beta delta [bind].
  pose proof (chat_call_user_data env Answer w) as Hu.
  unfold query_answer.
  destruct (chat_call env Answer w) as [[[]|e] w']; [|reflexivity].
  cbn [snd] in Hu. unfold get_world. cbv beta iota. rewrite Hu, quality_of_payload.
  destruct (user_data w !! chat_id q) as [d|] eqn:E.
  - rewrite bool_decide_true by eauto. reflexivity.
  - rewrite bool_decide_false by (intros [? ?]; discriminate). reflexivity.
Qed.

(** *** What the handler takes from the store *)

Lemma button_handler_reads_url env q w :
  button_handler env q w = on_button env q (url <$> user_data w !! chat_id q) w.
Proof.
  unfold button_handler, on_button. cbv beta delta [bind].
  pose proof (chat_call_user_data env Answer w) as Hu.
  unfold query_answer.
  destruct (chat_call env Answer w) as [[[]|e] w']; [|reflexivity].
  cbn [snd] in Hu.
  destruct (String.eqb (data q) "enter_link"); [reflexivity|].
  destruct (String.prefix "quality_" (data q)); [|reflexivity].
  unfold get_world. cbv beta iota. rewrite Hu.
  destruct (user_data w !! chat_id q) as [d|] eqn:E.
  - rewrite bool_decide_true by eauto. cbn [fmap option_fmap option_map].
    destruct (Py.second (Py.split "_" (data q))); reflexivity.
  - rewrite bool_decide_false by (intros [? ?]; discriminate). reflexivity.
Qed.

Section IgnoresStore.

Lemma ignores_ret {A} (a : A) : ignores_store (ret a).
Proof. intros w ud. reflexivity. Qed.

Lemma ignores_raise {A} e : ignores_store (@raise A e).
Proof. intros w ud. reflexivity. Qed.

Lemma ignores_bind {A B} (m : M A) (k : A -> M B) :
  ignores_store m -> (forall a, ignores_store (k a)) -> ignores_store (bind m k).
Proof.
  intros Hm Hk w ud. unfold bind. rewrite Hm.
  destruct (m w) as [[a|e] w']; cbn [fst snd]; [apply Hk|reflexivity].
Qed.

Lemma ignores_try_except {A} (body : M A) handler :
  ignores_store body -> (forall e, ignores_store (handler e)) ->
  ignores_store (try_except body handler).
Proof.
  intros Hb Hh w ud. unfold try_except. rewrite Hb.
  destruct (body w) as [[a|e] w']; cbn [fst snd]; [reflexivity|apply Hh].
Qed.

Lemma ignores_try_finally {A} (body : M A) fin :
  ignores_store body -> ignores_store fin -> ignores_store (try_finally body fin).
Proof.
  intros Hb Hf w ud. unfold try_finally. rewrite Hb.
  destruct (body w) as [r w']; cbn [fst snd]. rewrite Hf.
  destruct (fin w') as [[[]|e] w'']; reflexivity.
Qed.

Lemma ignores_if {A} (b : bool) (m1 m2 : M A) :
  ignores_store m1 -> ignores_store m2 -> ignores_store (if b then m1 else m2).
Proof. now destruct b. Qed.

Lemma ignores_or_raise {A} (o : option A) e : ignores_store (or_raise o e).
Proof. destruct o; [apply ignores_ret|apply ignores_raise]. Qed.

Context (env : Env).

Lemma ignores_time_time : ignores_store (time_time env).
Proof. intros w ud. reflexivity. Qed.

Lemma ignores_chat_call ev : ignores_store (chat_call env ev).
Proof.
  intros w ud. unfold chat_call. cbn [calls with_user_data].
  destruct (chat env (calls w) ev); reflexivity.
Qed.

Lemma ignores_logger_error text : ignores_store (logger_error text).
Proof. intros w ud. reflexivity. Qed.

Lemma ignores_ydl_download_call opts u : ignores_store (ydl_download_call env opts u).
Proof.
  intros w ud. unfold ydl_download_call. cbn [calls files with_user_data].
  destruct (ydl_download env (calls w) opts u (files w)) as [fs [e|]]; reflexivity.
Qed.

Lemma ignores_os_path_exists p : ignores_store (os_path_exists p).
Proof. intros w ud. reflexivity. Qed.

Lemma ignores_os_path_getsize p : ignores_store (os_path_getsize p).
Proof.
  intros w ud. unfold os_path_getsize. cbn [files with_user_data].
  destruct (files w !! p); reflexivity.
Qed.

Lemma ignores_os_remove p : ignores_store (os_remove p).
Proof.
  intros w ud. unfold os_remove. cbn [files with_user_data].
  destruct (files w !! p); reflexivity.
Qed.

Create HintDb ignores.
#[local] Hint Resolve ignores_ret ignores_raise ignores_time_time ignores_chat_call
  ignores_logger_error ignores_ydl_download_call ignores_os_path_exists
  ignores_os_path_getsize ignores_os_remove ignores_or_raise : ignores.

Ltac ignores :=
  repeat first
    [ progress eauto with ignores
    | apply ignores_bind; [|intros ?]
    | apply ignores_try_finally
    | apply ignores_try_except; [|intros ?]
    | apply ignores_if
    | match goal with |- ignores_store (match ?o with _ => _ end) => destruct o end ].

Lemma ignores_download_video u res q : ignores_store (download_video env u res q).
Proof.
  unfold download_video, download_body, download_failed, download_cleanup,
    reply_text, reply_video.
  ignores.
Qed.

Lemma ignores_on_button q o : ignores_store (on_button env q o).
Proof.
  unfold on_button, query_answer, reply_text.
  pose proof ignores_download_video.
  ignores.
Qed.

End IgnoresStore.

(** C10: with the same stored URL, two entries that differ in their
    [formats] dictionary (and time stamp) make [button_handler] do the
    same: same outcome, same events (among them the call of
    [ydl.download] with its options and URL), same files. *)
Theorem download_request_ignores_formats env q w u f1 t1 f2 t2 :
  let run d :=
    button_handler env q (with_user_data (<[chat_id q := d]> (user_data w)) w) in
  fst (run (Entry u f1 t1)) = fst (run (Entry u f2 t2))
  /\ trace (snd (run (Entry u f1 t1))) = trace (snd (run (Entry u f2 t2)))
  /\ files (snd (run (Entry u f1 t1))) = files (snd (run (Entry u f2 t2)))
  /\ calls (snd (run (Entry u f1 t1))) = calls (snd (run (Entry u f2 t2))).
Proof.
  intros run. subst run. cbv beta.
  rewrite !button_handler_reads_url. cbn [user_data with_user_data].
  rewrite !lookup_insert_eq. cbn [fmap option_fmap option_map url].
  rewrite !(ignores_on_button env q (Some u) w). cbn [fst snd].
  repeat split.
Qed.

(** *** Events a run never produces *)

Section NeverSent.

Context (env : Env) (ev0 : event).








End NeverSent.

Lemma failed_is_not_expired m :
  ReplyText ("❌ Download failed: " ++ m) None <> session_expired_reply.
Proof. discriminate. Qed.






(** C9, as the spec states it, fails when the chat transport fails:
    [button_handler] has no [try], so the exception of [query.answer()]
    leaves the handler, and the session-expired text is not sent. *)
Lemma quality_press_unanswered :
  String.prefix "quality_" (data sample_query) = true
  /\ user_data empty_world !! chat_id sample_query = None
  /\ button_handler env_mute sample_query empty_world
     = (Raise (External "Timed out"), World ∅ ∅ [Answer] 1).
Proof. repeat split. Qed.

(** C9 (amended): a quality press for a user without an entry in
    [user_data] makes two chat calls, [query.answer()] and the
    session-expired text, and nothing else; no dictionary or index access
    fails on this path.  The handler ends normally when the chat transport
    accepts both calls; when the transport raises on one of them, that
    exception leaves the handler, before the session-expired text when it
    was raised by [query.answer()]. *)
Theorem quality_press_without_entry env q w :
  String.prefix "quality_" (data q) = true ->
  user_data w !! chat_id q = None ->
  button_handler env q w =
    match chat env (calls w) Answer with
    | Some e => (Raise e, record Answer (bump w))
    | None =>
        let w2 := record session_expired_reply (bump (record Answer (bump w))) in
        match chat env (S (calls w)) session_expired_reply with
        | Some e => (Raise e, w2)
        | None => (Ok tt, w2)
        end
    end.
Proof.
  intros Hp Hd. destruct (prefix_true_app _ _ Hp) as [t Ht].
  rewrite (button_handler_quality env q t w Ht), Hd.
  unfold bind, query_answer, chat_call.
  destruct (chat env (calls w) Answer); reflexivity.
Qed.

Lemma quality_press_without_entry_witness :
  button_handler (env_writing 1) sample_query empty_world =
    (Ok tt, World ∅ ∅ [session_expired_reply; Answer] 2).
Proof.
  exact (quality_press_without_entry (env_writing 1) sample_query empty_world
           eq_refl eq_refl).
Defined.

(** ** Decimal texts *)

Lemma int_str z : Py.int (Py.str z) = Some z.
Proof.
  unfold Py.int, Py.str. rewrite NilZero.isi.
  - cbn [fmap option_fmap option_map]. now rewrite DecimalZ.of_to.
  - destruct z; try discriminate.
    intros [= H]. now apply DecimalPos.Unsigned.to_uint_nonnil in H.
  - destruct z; try discriminate.
    intros [= H]. now apply DecimalPos.Unsigned.to_uint_nonnil in H.
Qed.

Lemma str_inj a b : Py.str a = Py.str b -> a = b.
Proof.
  intros H. apply (f_equal Py.int) in H. rewrite !int_str in H. congruence.
Qed.

Lemma decimal_char_false c :
  decimal_char c = false ->
  Forall (fun d => Ascii.eqb d c = false) (list_ascii_of_string "-0123456789").
Proof.
  unfold decimal_char. intros H. apply Forall_forall. intros d Hd.
  destruct (Ascii.eqb d c) eqn:E; [|reflexivity].
  rewrite <- H. symmetry. apply existsb_exists. exists d. split; [|exact E].
  now apply list_elem_of_In.
Qed.

Lemma uint_text_chars c d :
  decimal_char c = false ->
  Py.contains (String c "") (NilEmpty.string_of_uint d) = false.
Proof.
  intros H%decimal_char_false. cbn [list_ascii_of_string] in H.
  repeat (apply Forall_cons in H as [? H]).
  induction d; cbn [NilEmpty.string_of_uint]; [reflexivity|..];
    rewrite contains_char_cons, IHd, orb_false_r; assumption.
Qed.

Lemma str_chars c z :
  decimal_char c = false -> Py.contains (String c "") (Py.str z) = false.
Proof.
  intros H. pose proof (fun d => uint_text_chars c d H) as Hu.
  apply decimal_char_false in H. cbn [list_ascii_of_string] in H.
  repeat (apply Forall_cons in H as [? H]).
  assert (Hz : forall d, Py.contains (String c "") (NilZero.string_of_uint d) = false).
  { intros d. destruct d.
    - cbn [NilZero.string_of_uint]. now rewrite contains_char_cons, orb_false_r.
    - apply (Hu (Decimal.D0 d)).
    - apply (Hu (Decimal.D1 d)).
    - apply (Hu (Decimal.D2 d)).
    - apply (Hu (Decimal.D3 d)).
    - apply (Hu (Decimal.D4 d)).
    - apply (Hu (Decimal.D5 d)).
    - apply (Hu (Decimal.D6 d)).
    - apply (Hu (Decimal.D7 d)).
    - apply (Hu (Decimal.D8 d)).
    - apply (Hu (Decimal.D9 d)). }
  unfold Py.str. destruct (Z.to_int z) as [d|d]; cbn [NilZero.string_of_int].
  - apply Hz.
  - now rewrite contains_char_cons, Hz, orb_false_r.
Qed.

Lemma before_app_sep sep s t :
  Py.contains (String sep "") s = false -> before sep (s ++ String sep t) = s.
Proof.
  induction s as [|c s IH].
  - intros _. change ("" ++ String sep t) with (String sep t).
    now rewrite before_cons, Ascii.eqb_refl.
  - rewrite contains_char_cons. intros H. apply orb_false_iff in H as [E H].
    change (String c s ++ String sep t) with (String c (s ++ String sep t)).
    now rewrite before_cons, E, IH.
Qed.

(** A decimal text followed by a character that is not one of its own can
    be read back. *)
Lemma str_delimited sep a b s t :
  decimal_char sep = false ->
  Py.str a ++ String sep s = Py.str b ++ String sep t -> a = b /\ s = t.
Proof.
  intros Hsep H. assert (Hab : a = b).
  { apply str_inj. apply (f_equal (before sep)) in H.
    now rewrite !before_app_sep in H by now apply str_chars. }
  split; [exact Hab|]. subst b. apply append_cancel_l in H. now injection H.
Qed.

(** ** The name of the downloaded file *)

(** The name [download_{user_id}_{int(time.time())}.mp4] of line 138 keeps
    the whole seconds of the clock only: two readings within one second
    give the same name for the same chat.  Whether two invocations of
    [download_video] can be in flight at once is decided by the dispatch
    of the library, not by this program. *)
Example same_second_same_artifact :
  ~ (1700000000.2 == 1700000000.7)%Q
  /\ artifact_path 7 1700000000.2%Q = artifact_path 7 1700000000.7%Q.
Proof. split; [discriminate|reflexivity]. Qed.

(** Two file names are the same exactly when they are for the same chat
    and the two readings of the clock fall in the same whole second; names
    for different chats, or for different seconds, differ. *)
Theorem artifact_paths_collide_iff u1 t1 u2 t2 :
  artifact_path u1 t1 = artifact_path u2 t2 <->
  u1 = u2 /\ Py.int_of_float t1 = Py.int_of_float t2.
Proof.
  unfold artifact_path. split.
  - intros H. apply append_cancel_l in H.
    change ("_" ++ ?x) with (String "_" x) in H.
    apply str_delimited in H as [Hu H]; [|reflexivity].
    change ".mp4" with (String "." "mp4") in H.
    apply str_delimited in H as [Hn _]; [|reflexivity].
    now split.
  - now intros [-> ->].
Qed.

(** ** The qualities offered *)

#[local] Instance str_Inj : Inj (=) (=) Py.str.
Proof. intros a b. apply str_inj. Qed.

#[local] Instance Zge_total : Total Z.ge.
Proof. intros a b. lia. Qed.

#[local] Instance Zge_trans : Transitive Z.ge.
Proof. intros a b c. lia. Qed.

Lemma usable_has_height f : usable f = true -> exists h, height f = Some h.
Proof. unfold usable. destruct (height f); [eauto|discriminate]. Qed.

(** The keys of the dictionary built from the accumulator [m]. *)
Lemma qualities_keys_from fs (m : gmap string string) k :
  is_Some (foldl (fun m f =>
                    match height f with
                    | Some h => if usable f then <[Py.str h := format_id f]> m else m
                    | None => m
                    end) m fs !! k)
  <-> is_Some (m !! k) \/ exists h, h ∈ usable_heights fs /\ k = Py.str h.
Proof.
  revert m. induction fs as [|f fs IH]; intros m; cbn [foldl].
  - split; [now left|]. intros [H|(h & H & _)]; [exact H|]. now apply elem_of_nil in H.
  - rewrite IH. unfold usable_heights. cbn [omap list_omap].
    fold (usable_heights fs).
    destruct (usable f) eqn:Eu.
    + destruct (usable_has_height f Eu) as [h Eh]. rewrite Eh.
      rewrite lookup_insert_is_Some. split.
      * intros [[E|[_ H]]|(h' & H & E)].
        -- right. exists h. split; [now left|now symmetry].
        -- now left.
        -- right. exists h'. split; [now right|exact E].
      * intros [H|(h' & H & E)].
        -- left. destruct (decide (Py.str h = k)); [now left|now right].
        -- apply elem_of_cons in H as [Hh|H].
           ++ left. left. now rewrite <- Hh.
           ++ right. now exists h'.
    + destruct (height f); reflexivity.
Qed.

Lemma qualities_keys fs k :
  is_Some (qualities fs !! k) <-> exists h, h ∈ usable_heights fs /\ k = Py.str h.
Proof.
  unfold qualities. rewrite qualities_keys_from, lookup_empty.
  split; [intros [[? [=]]|H]; exact H|now right].
Qed.

Lemma qualities_nonempty fs : usable_heights fs <> [] -> qualities fs <> ∅.
Proof.
  intros Hne Hm. destruct (usable_heights fs) as [|h hs] eqn:E; [congruence|].
  assert (H : is_Some (qualities fs !! Py.str h)).
  { apply qualities_keys. exists h. rewrite E. split; [now left|reflexivity]. }
  rewrite Hm, lookup_empty in H. now destruct H.
Qed.

(** On keys written by [str], the comprehension [[int(r) for r in ...]]
    does not raise and reads the numbers back. *)
Lemma ints_run keys w :
  Forall (fun k => exists h, k = Py.str h) keys ->
  exists hs, ints keys w = (Ok hs, w) /\ Py.str <$> hs = keys.
Proof.
  induction 1 as [|k keys [h ->] _ [hs [IH1 IH2]]].
  - now exists [].
  - exists (h :: hs). cbn [ints]. unfold bind at 1. rewrite int_str.
    cbn [or_raise ret]. unfold bind. rewrite IH1. cbn [ret].
    now rewrite <- IH2.
Qed.

Lemma keys_of_qualities fs :
  Forall (fun k => exists h, k = Py.str h) (map_to_list (qualities fs)).*1.
Proof.
  apply Forall_forall. intros k Hk.
  apply list_elem_of_fmap in Hk as [[k' v] [-> Hk]].
  apply elem_of_map_to_list in Hk.
  destruct (proj1 (qualities_keys fs k') (mk_is_Some _ _ Hk)) as (h & _ & ->).
  now exists h.
Qed.

Lemma heights_of_keys fs hs h :
  Py.str <$> hs = (map_to_list (qualities fs)).*1 ->
  h ∈ hs <-> h ∈ usable_heights fs.
Proof.
  intros Hk. rewrite <- (list_elem_of_fmap_inj Py.str), Hk. split.
  - intros H. apply list_elem_of_fmap in H as [[k' v] [Hk' H]]. cbn [fst] in Hk'.
    subst k'. apply elem_of_map_to_list in H.
    destruct (proj1 (qualities_keys fs _) (mk_is_Some _ _ H)) as (h' & Hh' & E).
    now apply str_inj in E as ->.
  - intros H.
    destruct (proj2 (qualities_keys fs (Py.str h))) as [v Hv]; [now exists h|].
    apply list_elem_of_fmap. exists (Py.str h, v). split; [reflexivity|].
    now apply elem_of_map_to_list.
Qed.

Lemma strictly_descending (l : list Z) :
  NoDup l -> StronglySorted Z.ge l -> StronglySorted Z.gt l.
Proof.
  induction 2 as [|x l Hs IH Hall]; [constructor|].
  apply NoDup_cons in H as [Hx Hl]. constructor; [now apply IH|].
  apply Forall_forall. intros y Hy.
  pose proof (proj1 (Forall_forall _ _) Hall y Hy).
  assert (x <> y) by (intros ->; contradiction). lia.
Qed.

Lemma sorted_reverse_sorted hs :
  NoDup hs -> StronglySorted Z.gt (sorted_reverse hs).
Proof.
  intros Hnd. unfold sorted_reverse. apply strictly_descending.
  - now rewrite merge_sort_Permutation.
  - apply StronglySorted_merge_sort; apply _.
Qed.

Lemma top_four_of_distinct hs all :
  NoDup hs -> (forall h, h ∈ hs <-> h ∈ all) ->
  top_four all (take 4 (sorted_reverse hs)).
Proof.
  intros Hnd Hall.
  pose proof (sorted_reverse_sorted hs Hnd) as Hs.
  assert (Hp : sorted_reverse hs ≡ₚ hs) by apply merge_sort_Permutation.
  rewrite <- (take_drop 4 (sorted_reverse hs)) in Hs.
  repeat split.
  - eapply StronglySorted_app_1_l, Hs.
  - intros h Hh. apply Hall. rewrite <- Hp.
    rewrite <- (take_drop 4 (sorted_reverse hs)). apply elem_of_app. now left.
  - rewrite length_take. f_equal. rewrite (Permutation_length Hp).
    rewrite <- (size_list_to_set (C := gset Z) hs Hnd). f_equal.
    apply set_eq. intros h. rewrite !elem_of_list_to_set. apply Hall.
  - intros h x Hh Hout Hx.
    assert (Hd : h ∈ drop 4 (sorted_reverse hs)).
    { apply Hall in Hh. rewrite <- Hp, <- (take_drop 4 (sorted_reverse hs)) in Hh.
      apply elem_of_app in Hh as [?|?]; [contradiction|assumption]. }
    pose proof (StronglySorted_app_1_elem_of _ _ _ _ _ Hs Hx Hd). lia.
Qed.

Lemma descending_NoDup (l : list Z) : StronglySorted Z.gt l -> NoDup l.
Proof.
  induction 1 as [|x l _ IH Hall]; constructor; [|exact IH].
  intros Hx. pose proof (proj1 (Forall_forall _ _) Hall x Hx). lia.
Qed.

Lemma top_four_included hs l1 l2 :
  top_four hs l1 -> top_four hs l2 -> forall x, x ∈ l1 -> x ∈ l2.
Proof.
  intros (S1 & In1 & Len1 & Top1) (S2 & In2 & Len2 & Top2) x Hx.
  destruct (decide (x ∈ l2)) as [|Hout]; [assumption|exfalso].
  assert (Hsub : forall y, y ∈ l2 -> y ∈ l1).
  { intros y Hy. destruct (decide (y ∈ l1)) as [|Hy1]; [assumption|exfalso].
    pose proof (Top1 y x (In2 y Hy) Hy1 Hx).
    pose proof (Top2 x y (In1 x Hx) Hout Hy). lia. }
  apply Hout.
  assert (Hp : l2 ≡ₚ l1).
  { apply submseteq_length_Permutation; [|lia].
    apply NoDup_submseteq; [now apply descending_NoDup|exact Hsub]. }
  now rewrite Hp.
Qed.

(** [top_four] describes one list only. *)
Lemma top_four_unique hs l1 l2 : top_four hs l1 -> top_four hs l2 -> l1 = l2.
Proof.
  intros H1 H2.
  pose proof (top_four_included hs l1 l2 H1 H2) as H12.
  destruct H1 as (S1 & _ & Len1 & _), H2 as (S2 & _ & Len2 & _).
  apply (StronglySorted_unique_strong Z.gt); try assumption.
  - intros x1 x2 _ _ ? ?. lia.
  - apply submseteq_length_Permutation; [|lia].
    apply NoDup_submseteq; [now apply descending_NoDup|exact H12].
Qed.

Lemma get_video_qualities_run env u w fs :
  extract_info env (calls w) u = inr fs ->
  get_video_qualities env u w = (Ok (Some (qualities fs)), record (ExtractInfo u) (bump w)).
Proof.
  intros H. unfold get_video_qualities, try_except, bind, ydl_extract_info.
  now rewrite H.
Qed.

(** The run of [handle_message] on a link for which the resolver finds
    usable formats. *)
Lemma handle_message_offer env user_id text w fs :
  let u := normalize_youtube_url (Py.strip text) in
  is_valid_youtube_url u = true ->
  extract_info env (calls w) u = inr fs ->
  usable_heights fs <> [] ->
  exists hs,
    Py.str <$> hs = (map_to_list (qualities fs)).*1
    /\ (let offer := ReplyText "🎞️ Select video quality:"
                       (Some (quality_button <$> take 4 (sorted_reverse hs))) in
        trace (snd (handle_message env user_id text w)) =
          (after_send (chat env (S (S (calls w))) offer)
           ++ offer :: ExtractInfo u :: trace w)%list)
    /\ user_data (snd (handle_message env user_id text w)) =
         <[user_id := Entry u (qualities fs) (clock env (S (calls w)))]> (user_data w).
Proof.
  intros u Hv He Hne.
  destruct (ints_run (map_to_list (qualities fs)).*1
              (with_user_data
                 (<[user_id := Entry u (qualities fs) (clock env (S (calls w)))]>
                    (user_data w))
                 (bump (record (ExtractInfo u) (bump w))))
              (keys_of_qualities fs)) as (hs & Hi & Hk).
  exists hs. split; [exact Hk|].
  set (offer := ReplyText "🎞️ Select video quality:"
                  (Some (quality_button <$> take 4 (sorted_reverse hs)))).
  set (w3 := record offer
               (bump (with_user_data
                        (<[user_id := Entry u (qualities fs) (clock env (S (calls w)))]>
                           (user_data w))
                        (bump (record (ExtractInfo u) (bump w)))))).
  assert (Hrun : handle_message env user_id text w =
                 match chat env (S (S (calls w))) offer with
                 | None => (Ok tt, w3)
                 | Some e =>
                     reply_text env "❌ Error processing link. Please try again." None
                       (record (LogError ("Error processing URL: " ++ exn_str e)) w3)
                 end).
  { unfold handle_message. fold u. rewrite Hv. cbn [negb].
    unfold try_except. unfold bind at 1.
    rewrite (get_video_qualities_run env u w fs He).
    rewrite bool_decide_false by now apply qualities_nonempty.
    unfold bind at 1. unfold time_time at 1.
    unfold bind at 1. unfold get_world at 1.
    unfold bind at 1. unfold set_user_data at 1.
    cbn [user_data calls record bump].
    unfold bind at 1. rewrite Hi.
    unfold reply_text at 1. unfold chat_call at 1.
    cbn [calls with_user_data bump record]. fold offer.
    destruct (chat env (S (S (calls w))) offer) as [e|]; reflexivity. }
  rewrite Hrun. cbv zeta.
  destruct (chat env (S (S (calls w))) offer) as [e|]; [|split; reflexivity].
  rewrite reply_text_trace. unfold reply_text, chat_call.
  destruct (chat env _ _); split; reflexivity.
Qed.

(** C5: when the link is valid and the resolver reports at least one
    usable format, [handle_message] sends the quality menu right after the
    discovery, one button per row, and the resolutions on the buttons are
    the top four of the discovered heights: distinct, highest first, four
    of them or all when fewer exist. *)
Theorem offered_qualities_are_top_four env user_id text w fs :
  let u := normalize_youtube_url (Py.strip text) in
  is_valid_youtube_url u = true ->
  extract_info env (calls w) u = inr fs ->
  usable_heights fs <> [] ->
  exists offered,
    top_four (usable_heights fs) offered
    /\ (let offer :=
          ReplyText "🎞️ Select video quality:"
            (Some ((fun res => [Button (Py.str res ++ "p") ("quality_" ++ Py.str res)])
                   <$> offered)) in
        trace (snd (handle_message env user_id text w)) =
          (after_send (chat env (S (S (calls w))) offer)
           ++ offer :: ExtractInfo u :: trace w)%list).
Proof.
  intros u Hv He Hne.
  destruct (handle_message_offer env user_id text w fs Hv He Hne)
    as (hs & Hk & Ht & _).
  exists (take 4 (sorted_reverse hs)). split; [|exact Ht].
  apply top_four_of_distinct.
  - apply (NoDup_fmap_1 Py.str). rewrite Hk. apply NoDup_fst_map_to_list.
  - intros h. now apply heights_of_keys.
Qed.

Lemma offered_qualities_are_top_four_witness :
  exists offered,
    top_four (usable_heights sample_formats) offered
    /\ trace (snd (handle_message (env_writing 1) 7
                     "https://youtu.be/abc123?feature=share" empty_world)) =
         [ReplyText "🎞️ Select video quality:"
            (Some ((fun res => [Button (Py.str res ++ "p") ("quality_" ++ Py.str res)])
                   <$> offered));
          ExtractInfo sample_url].
Proof.
  apply (offered_qualities_are_top_four (env_writing 1) 7
           "https://youtu.be/abc123?feature=share" empty_world sample_formats).
  - reflexivity.
  - reflexivity.
  - discriminate.
Defined.

(** The scenario of the spec: heights 144, 360, 480, 720 and 1080. *)
Example offered_for_sample_formats :
  trace (snd (handle_message (env_writing 1) 7
                "https://youtu.be/abc123?feature=share" empty_world)) =
    [ReplyText "🎞️ Select video quality:"
       (Some [[Button "1080p" "quality_1080"];
              [Button "720p" "quality_720"];
              [Button "480p" "quality_480"];
              [Button "360p" "quality_360"]]);
     ExtractInfo sample_url].
Proof. vm_compute. reflexivity. Qed.

(** * Further properties of the handlers *)

(** ** Which exceptions leave a handler *)

Section RaisesOnly.

Context (P : exn -> Prop).

Lemma raises_only_ret {A} (a : A) : raises_only P (ret a).
Proof. intros w e w1 [=]. Qed.

Lemma raises_only_bind {A B} (m : M A) (k : A -> M B) :
  raises_only P m -> (forall a, raises_only P (k a)) -> raises_only P (bind m k).
Proof.
  intros Hm Hk w e w1 H. apply bind_raises in H as [H|(a & w' & _ & H)].
  - eapply Hm, H.
  - eapply Hk, H.
Qed.

(** Only the [except] block decides what leaves a [try ... except]. *)
Lemma raises_only_try_except {A} (body : M A) handler :
  (forall e, raises_only P (handler e)) -> raises_only P (try_except body handler).
Proof.
  intros Hh w e w1. unfold try_except.
  destruct (body w) as [[a|e0] w0]; [intros [=]|apply Hh].
Qed.

Lemma raises_only_try_finally {A} (body : M A) fin :
  raises_only P body -> raises_only P fin -> raises_only P (try_finally body fin).
Proof.
  intros Hb Hf w e w1. unfold try_finally.
  destruct (body w) as [r w0] eqn:Eb. destruct (fin w0) as [[[]|e1] w2] eqn:Ef.
  - intros [= -> ->]. eapply Hb, Eb.
  - intros [= -> ->]. eapply Hf, Ef.
Qed.

Lemma raises_only_if {A} (b : bool) (m1 m2 : M A) :
  raises_only P m1 -> raises_only P m2 -> raises_only P (if b then m1 else m2).
Proof. now destruct b. Qed.

Lemma raises_only_logger_error text : raises_only P (logger_error text).
Proof. intros w e w1 [=]. Qed.

Lemma raises_only_download_cleanup p : raises_only P (download_cleanup p).
Proof.
  intros w e w1. unfold download_cleanup, bind, os_path_exists, os_remove.
  destruct (files w !! p) as [sz|] eqn:E.
  - rewrite bool_decide_true by eauto. rewrite E. intros [=].
  - rewrite bool_decide_false by (intros [? ?]; discriminate). intros [=].
Qed.

End RaisesOnly.

Lemma raises_only_chat_call env ev : raises_only (transport_raised env) (chat_call env ev).
Proof. intros w e w1 H. apply chat_call_raises in H. now exists (calls w), ev. Qed.

Lemma download_video_faults env u res q :
  raises_only (transport_raised env) (download_video env u res q).
Proof.
  unfold download_video.
  apply raises_only_bind; [intros w e w1 [=]|intros now].
  apply raises_only_try_finally; [|apply raises_only_download_cleanup].
  apply raises_only_try_except. intros e0. unfold download_failed.
  apply raises_only_bind; [apply raises_only_logger_error|intros _].
  apply raises_only_chat_call.
Qed.

Lemma on_button_faults env q o :
  raises_only (transport_raised env) (on_button env q o).
Proof.
  unfold on_button.
  apply raises_only_bind; [apply raises_only_chat_call|intros _].
  apply raises_only_if; [apply raises_only_chat_call|].
  destruct (String.prefix "quality_" (data q)) eqn:Hp; [|apply raises_only_ret].
  destruct o as [u|]; [|apply raises_only_chat_call].
  destruct (prefix_true_app _ _ Hp) as [t ->]. rewrite quality_of_payload.
  apply raises_only_bind; [apply raises_only_ret|intros quality].
  apply raises_only_bind; [apply raises_only_chat_call|intros _].
  apply download_video_faults.
Qed.

(** Whatever the resolver does, an exception leaves [download_video] only
    when the chat transport refuses the failure message itself. *)
Theorem download_video_raises_only_transport env u res q w e w1 :
  download_video env u res q w = (Raise e, w1) -> transport_raised env e.
Proof. apply download_video_faults. Qed.

Lemma download_video_raises_only_transport_witness :
  transport_raised env_mute (External "Timed out").
Proof.
  eapply (download_video_raises_only_transport env_mute sample_url "720"
            sample_query empty_world).
  vm_compute. reflexivity.
Defined.

(** On an update that carries a message, an exception leaves
    [handle_message] only when the chat transport raises while the
    [except] block sends its text. *)
Lemma handle_message_raises_only_transport env user_id text w e w1 :
  handle_message env user_id text w = (Raise e, w1) -> transport_raised env e.
Proof.
  revert w e w1. fold (raises_only (transport_raised env) (handle_message env user_id text)).
  unfold handle_message. apply raises_only_try_except. intros e0.
  apply raises_only_bind; [apply raises_only_logger_error|intros _].
  apply raises_only_chat_call.
Qed.

(** The exceptions that leave [handle_message] as it is registered: the
    [AttributeError] of line 73 on an update without a message, before
    anything was done, and otherwise only what the chat transport raised
    while the [except] block sent its text. *)
Theorem handle_message_update_raises env upd w e w1 :
  handle_message_update env upd w = (Raise e, w1) ->
  (update_message upd = None
   /\ e = AttributeError "'NoneType' object has no attribute 'chat_id'"
   /\ w1 = w)
  \/ (is_Some (update_message upd) /\ transport_raised env e).
Proof.
  unfold handle_message_update. destruct (update_message upd) as [m|]; intros H.
  - right. split; [now exists m|].
    eapply handle_message_raises_only_transport, H.
  - left. inversion H. now repeat split.
Qed.

Lemma handle_message_update_raises_witness :
  (update_message (Update None) = None
   /\ AttributeError "'NoneType' object has no attribute 'chat_id'"
      = AttributeError "'NoneType' object has no attribute 'chat_id'"
   /\ empty_world = empty_world)
  \/ (is_Some (update_message (Update None))
      /\ transport_raised (env_writing 1)
           (AttributeError "'NoneType' object has no attribute 'chat_id'")).
Proof.
  apply (handle_message_update_raises (env_writing 1) (Update None) empty_world).
  reflexivity.
Defined.

(** With a transport that fails on every call, the exception of the last
    call leaves the handler. *)
Example handle_message_update_mute :
  fst (handle_message_update env_mute
         (Update (Some (Message 7 "https://youtu.be/abc123?feature=share")))
         empty_world)
  = Raise (External "Timed out").
Proof. vm_compute. reflexivity. Qed.

(** Whatever the payload and the store, [button_handler] raises no
    [KeyError] and no [IndexError] of its own: only the chat transport can
    make it fail. *)
Theorem button_handler_raises_only_transport env q w e w1 :
  button_handler env q w = (Raise e, w1) -> transport_raised env e.
Proof.
  rewrite button_handler_reads_url. apply on_button_faults.
Qed.

Lemma button_handler_raises_only_transport_witness :
  transport_raised env_mute (External "Timed out").
Proof.
  eapply (button_handler_raises_only_transport env_mute sample_query world_after_link).
  vm_compute. reflexivity.
Defined.

(** ** What the handlers do to the store *)

Lemma ignores_store_user_data {A} (m : M A) w :
  ignores_store m -> user_data (snd (m w)) = user_data w.
Proof.
  intros H. specialize (H w (user_data w)).
  assert (Hw : with_user_data (user_data w) w = w) by now destruct w.
  rewrite Hw in H. rewrite H at 1. reflexivity.
Qed.

Section StoreKept.

Context (env : Env) (X : gmap Z entry).

#[local] Abbreviation kept := (store_is X).

Lemma kept_chat_call ev : keeps kept (chat_call env ev).
Proof. intros w H. unfold store_is. now rewrite chat_call_user_data. Qed.

Lemma kept_logger_error text : keeps kept (logger_error text).
Proof. intros w H. exact H. Qed.

Lemma kept_ints keys : keeps kept (ints keys).
Proof.
  induction keys as [|k keys IH]; [apply keeps_ret|]. cbn [ints].
  apply keeps_bind; [apply keeps_or_raise|intros n].
  apply keeps_bind; [exact IH|intros ns]. apply keeps_ret.
Qed.

Lemma kept_except_block text1 text2 e :
  keeps kept (logger_error (text1 ++ exn_str e) ;; reply_text env text2 None)%handler.
Proof.
  apply keeps_bind; [apply kept_logger_error|intros _]. apply kept_chat_call.
Qed.

Lemma kept_try_except {A} (body : M A) handler w :
  (forall e, keeps kept (handler e)) ->
  kept (snd (body w)) -> kept (snd (try_except body handler w)).
Proof.
  intros Hh Hb. unfold try_except.
  destruct (body w) as [[a|e] w']; [exact Hb|now apply Hh].
Qed.

End StoreKept.

Lemma get_video_qualities_fault env u w e :
  extract_info env (calls w) u = inl e ->
  get_video_qualities env u w =
    (Ok None,
     record (LogError ("Error getting qualities: " ++ exn_str e))
       (record (ExtractInfo u) (bump w))).
Proof.
  intros H. unfold get_video_qualities, try_except, bind, ydl_extract_info.
  now rewrite H.
Qed.

(** The [try] block of [handle_message], as far as the store goes. *)
Lemma handle_message_store env user_id text w :
  let u := normalize_youtube_url (Py.strip text) in
  let w' := snd (handle_message env user_id text w) in
  user_data w' = user_data w
  \/ (is_valid_youtube_url u = true
      /\ exists fs,
           extract_info env (calls w) u = inr fs
           /\ qualities fs <> ∅
           /\ user_data w' =
                <[user_id := Entry u (qualities fs) (clock env (S (calls w)))]>
                  (user_data w)).
Proof.
  intros u w'. subst w'. unfold handle_message. fold u.
  destruct (is_valid_youtube_url u) eqn:Hv; cbn [negb].
  - destruct (extract_info env (calls w) u) as [e|fs] eqn:He.
    + left. apply kept_try_except; [intros e0; apply kept_except_block|].
      unfold bind at 1. rewrite (get_video_qualities_fault env u w e He).
      now apply kept_chat_call.
    + destruct (decide (qualities fs = ∅)) as [Hq|Hq].
      * left. apply kept_try_except; [intros e0; apply kept_except_block|].
        unfold bind at 1. rewrite (get_video_qualities_run env u w fs He).
        rewrite bool_decide_true by exact Hq. now apply kept_chat_call.
      * right. split; [reflexivity|]. exists fs. repeat split; [exact Hq|].
        apply kept_try_except; [intros e0; apply kept_except_block|].
        unfold bind at 1. rewrite (get_video_qualities_run env u w fs He).
        rewrite bool_decide_false by exact Hq.
        unfold bind at 1. unfold time_time at 1.
        unfold bind at 1. unfold get_world at 1.
        unfold bind at 1. unfold set_user_data at 1.
        cbn [user_data calls record bump].
        apply keeps_bind; [apply kept_ints|intros hs; apply kept_chat_call|].
        reflexivity.
  - left. apply kept_try_except; [intros e0; apply kept_except_block|].
    now apply kept_chat_call.
Qed.

Lemma qualities_empty fs : usable_heights fs = [] -> qualities fs = ∅.
Proof.
  intros H. apply map_empty. intros k. apply eq_None_not_Some. intros Hs.
  apply qualities_keys in Hs as (h & Hin & _). rewrite H in Hin.
  now apply elem_of_nil in Hin.
Qed.

Lemma cleanup_pass_store env w :
  user_data (snd (cleanup_pass env w)) =
  pop_all (expired_users (clock env (calls w)) (user_data w)) (user_data w).
Proof. now rewrite cleanup_pass_run. Qed.

(** [handle_message] for one user reads and writes no other user's entry:
    in every run, whatever the resolver and the transport do, the entries
    under the other keys are the ones that were there. *)
Theorem handle_message_touches_one_key env user_id text w (v : Z) :
  v <> user_id ->
  user_data (snd (handle_message env user_id text w)) !! v = user_data w !! v.
Proof.
  intros Hv.
  destruct (handle_message_store env user_id text w) as [H|(_ & fs & _ & _ & H)];
    rewrite H; [reflexivity|].
  now rewrite lookup_insert_ne.
Qed.

Lemma handle_message_touches_one_key_witness :
  user_data (snd (handle_message env_late 8 "https://youtu.be/xyz" world_after_link)) !! 7
  = user_data world_after_link !! 7.
Proof.
  apply (handle_message_touches_one_key env_late 8 "https://youtu.be/xyz"
           world_after_link 7).
  discriminate.
Defined.

(** [button_handler] never writes the store: after a quality press, with
    the download done or failed, the entry is still there. *)
Theorem button_handler_keeps_store env q w :
  user_data (snd (button_handler env q w)) = user_data w.
Proof.
  rewrite button_handler_reads_url.
  apply ignores_store_user_data, ignores_on_button.
Qed.

(** Every entry that the handlers leave in the store has passed the
    validation and holds at least one format: the three activities that
    touch [user_data] keep this true. *)
Theorem store_stays_well_formed env user_id text q w :
  store_well_formed w ->
  store_well_formed (snd (handle_message env user_id text w))
  /\ store_well_formed (snd (button_handler env q w))
  /\ store_well_formed (snd (cleanup_pass env w)).
Proof.
  intros Hw. split; [|split].
  - intros v d.
    destruct (handle_message_store env user_id text w)
      as [H|(Hv & fs & _ & Hq & H)]; rewrite H; [apply Hw|].
    destruct (decide (v = user_id)) as [->|Hne].
    + rewrite lookup_insert_eq. intros [= <-]. now split.
    + rewrite lookup_insert_ne by congruence. apply Hw.
  - intros v d. rewrite button_handler_reads_url.
    rewrite (ignores_store_user_data _ _ (ignores_on_button env q _)). apply Hw.
  - intros v d. rewrite cleanup_pass_store, sweep_lookup.
    destruct (user_data w !! v) as [d'|] eqn:E; [|discriminate].
    destruct (decide _); [discriminate|]. intros [= <-]. eapply Hw, E.
Qed.

Lemma world_after_link_well_formed : store_well_formed world_after_link.
Proof.
  intros v d.
  assert (H : user_data world_after_link =
              <[7 := Entry sample_url (qualities sample_formats) 1000%Q]> ∅)
    by (vm_compute; reflexivity).
  rewrite H. destruct (decide (v = 7)) as [->|Hne].
  - rewrite lookup_insert_eq. intros [= <-]. split; [reflexivity|].
    apply qualities_nonempty. discriminate.
  - rewrite lookup_insert_ne by congruence. rewrite lookup_empty. discriminate.
Qed.

Lemma store_stays_well_formed_witness :
  store_well_formed
    (snd (handle_message env_late 8 "https://youtu.be/xyz" world_after_link))
  /\ store_well_formed (snd (button_handler env_late sample_query world_after_link))
  /\ store_well_formed (snd (cleanup_pass env_late world_after_link)).
Proof.
  apply (store_stays_well_formed env_late 8 "https://youtu.be/xyz" sample_query
           world_after_link).
  exact world_after_link_well_formed.
Defined.

(** ** The other paths of [handle_message] *)

Lemma except_block_trace env text1 text2 e w :
  let w' := snd ((logger_error (text1 ++ exn_str e) ;;
                  reply_text env text2 None)%handler w) in
  trace w' = ReplyText text2 None :: LogError (text1 ++ exn_str e) :: trace w
  /\ user_data w' = user_data w /\ files w' = files w.
Proof.
  unfold bind, logger_error, reply_text, chat_call. cbn [calls record bump].
  destruct (chat env _ _); repeat split.
Qed.

(** A chat call inside the [try] block of [handle_message], followed by
    whatever the [except] block adds. *)
Lemma guarded_reply_run env text w :
  let ev := ReplyText text None in
  let w' := snd (try_except (reply_text env text None)
                   (fun e => logger_error ("Error processing URL: " ++ exn_str e) ;;
                             reply_text env "❌ Error processing link. Please try again."
                               None)%handler w) in
  trace w' = (after_send (chat env (calls w) ev) ++ ev :: trace w)%list
  /\ user_data w' = user_data w /\ files w' = files w.
Proof.
  intros ev w'. subst w'.
  set (handler := fun e : exn => _).
  assert (Hrun : try_except (reply_text env text None) handler w =
                 match chat env (calls w) ev with
                 | None => (Ok tt, record ev (bump w))
                 | Some e => handler e (record ev (bump w))
                 end).
  { unfold try_except, reply_text, chat_call. fold ev.
    destruct (chat env (calls w) ev); reflexivity. }
  rewrite Hrun. destruct (chat env (calls w) ev) as [e|]; [|repeat split].
  apply (except_block_trace env "Error processing URL: "
           "❌ Error processing link. Please try again." e (record ev (bump w))).
Qed.

(** A text that names neither ["youtube.com"] nor ["youtu.be"] after
    normalisation gets the warning; the resolver is not called and nothing
    is stored. *)
Theorem invalid_link_rejected env user_id text w :
  is_valid_youtube_url (normalize_youtube_url (Py.strip text)) = false ->
  let warn := ReplyText "⚠️ Please send a valid YouTube URL." None in
  let w' := snd (handle_message env user_id text w) in
  trace w' = (after_send (chat env (calls w) warn) ++ warn :: trace w)%list
  /\ user_data w' = user_data w
  /\ files w' = files w.
Proof.
  intros Hv warn w'. subst w'. unfold handle_message. rewrite Hv. cbn [negb].
  apply guarded_reply_run.
Qed.

Lemma invalid_link_rejected_witness :
  let w' := snd (handle_message (env_writing 1) 7 "hello there" empty_world) in
  trace w' = [ReplyText "⚠️ Please send a valid YouTube URL." None]
  /\ user_data w' = ∅ /\ files w' = ∅.
Proof.
  apply (invalid_link_rejected (env_writing 1) 7 "hello there" empty_world).
  reflexivity.
Defined.

(** When the resolver raises during discovery, the exception is logged,
    the user is told that no formats were found, and nothing is stored. *)
Theorem discovery_fault_reported env user_id text w e :
  let u := normalize_youtube_url (Py.strip text) in
  is_valid_youtube_url u = true ->
  extract_info env (calls w) u = inl e ->
  let sorry := ReplyText "❌ No downloadable formats found. Try another video." None in
  let w' := snd (handle_message env user_id text w) in
  trace w' =
    (after_send (chat env (S (calls w)) sorry)
     ++ sorry :: LogError ("Error getting qualities: " ++ exn_str e)
     :: ExtractInfo u :: trace w)%list
  /\ user_data w' = user_data w.
Proof.
  intros u Hv He sorry w'. subst w'.
  assert (Hrun : handle_message env user_id text w =
                 try_except
                   (reply_text env "❌ No downloadable formats found. Try another video."
                      None)
                   (fun e => logger_error ("Error processing URL: " ++ exn_str e) ;;
                             reply_text env "❌ Error processing link. Please try again."
                               None)%handler
                   (record (LogError ("Error getting qualities: " ++ exn_str e))
                      (record (ExtractInfo u) (bump w)))).
  { unfold handle_message. fold u. rewrite Hv. cbn [negb].
    unfold try_except. unfold bind at 1.
    now rewrite (get_video_qualities_fault env u w e He). }
  rewrite Hrun.
  destruct (guarded_reply_run env
              "❌ No downloadable formats found. Try another video."
              (record (LogError ("Error getting qualities: " ++ exn_str e))
                 (record (ExtractInfo u) (bump w)))) as (Ht & Hu & _).
  split; [exact Ht|exact Hu].
Qed.

(** When the resolver answers but no format has both a height and a video
    codec, the user is told that no formats were found and nothing is
    stored. *)
Theorem no_usable_format_reported env user_id text w fs :
  let u := normalize_youtube_url (Py.strip text) in
  is_valid_youtube_url u = true ->
  extract_info env (calls w) u = inr fs ->
  usable_heights fs = [] ->
  let sorry := ReplyText "❌ No downloadable formats found. Try another video." None in
  let w' := snd (handle_message env user_id text w) in
  trace w' =
    (after_send (chat env (S (calls w)) sorry) ++ sorry :: ExtractInfo u :: trace w)%list
  /\ user_data w' = user_data w.
Proof.
  intros u Hv He Hn sorry w'. subst w'.
  assert (Hrun : handle_message env user_id text w =
                 try_except
                   (reply_text env "❌ No downloadable formats found. Try another video."
                      None)
                   (fun e => logger_error ("Error processing URL: " ++ exn_str e) ;;
                             reply_text env "❌ Error processing link. Please try again."
                               None)%handler
                   (record (ExtractInfo u) (bump w))).
  { unfold handle_message. fold u. rewrite Hv. cbn [negb].
    unfold try_except. unfold bind at 1.
    rewrite (get_video_qualities_run env u w fs He).
    now rewrite bool_decide_true by now apply qualities_empty. }
  rewrite Hrun.
  destruct (guarded_reply_run env
              "❌ No downloadable formats found. Try another video."
              (record (ExtractInfo u) (bump w))) as (Ht & Hu & _).
  split; [exact Ht|exact Hu].
Qed.

(** The text of the message has a no-break space in front and an
    ideographic space behind. *)
Lemma discovery_fault_reported_witness :
  let w' := snd (handle_message env_blocked 7 " https://youtu.be/abc123　"
                   empty_world) in
  trace w' =
    [ReplyText "❌ No downloadable formats found. Try another video." None;
     LogError "Error getting qualities: ERROR: [youtube] abc123: Private video";
     ExtractInfo sample_url]
  /\ user_data w' = ∅.
Proof.
  apply (discovery_fault_reported env_blocked 7 " https://youtu.be/abc123　"
           empty_world
           (External "ERROR: [youtube] abc123: Private video")).
  - reflexivity.
  - reflexivity.
Defined.

Lemma no_usable_format_reported_witness :
  let w' := snd (handle_message env_audio_only 7 "https://youtu.be/abc123" empty_world) in
  trace w' =
    [ReplyText "❌ No downloadable formats found. Try another video." None;
     ExtractInfo sample_url]
  /\ user_data w' = ∅.
Proof.
  apply (no_usable_format_reported env_audio_only 7 "https://youtu.be/abc123" empty_world
           [Fmt None (Some "none") "140"; Fmt (Some 720) (Some "none") "251";
            Fmt (Some 0) (Some "avc1.64001F") "sb0"]).
  - reflexivity.
  - reflexivity.
  - reflexivity.
Defined.

(** ** The other paths of [download_video] *)

Lemma download_cleanup_run p w :
  download_cleanup p w =
  (Ok tt, match files w !! p with
          | Some _ => with_files (delete p (files w)) w
          | None => w
          end).
Proof.
  unfold download_cleanup, bind, os_path_exists, os_remove.
  destruct (files w !! p) as [sz|] eqn:E.
  - rewrite bool_decide_true by eauto. now rewrite E.
  - now rewrite bool_decide_false by (intros [? ?]; discriminate).
Qed.

(** When the resolver returns, the output file exists and is within the
    limit, and the chat transport works, [download_video] announces the
    upload and sends the file, in that order, right after the call of the
    resolver; when it ends the file is removed, no other file is touched
    and the store is as it was.  What is sent after the video (lines
    176-181, which do not parse) is left open. *)
Theorem download_success_run env u res q w fs sz :
  let file_path := artifact_path (chat_id q) (clock env (calls w)) in
  (forall n ev, chat env n ev = None) ->
  ydl_download env (S (S (calls w))) (download_opts res file_path) u (files w) = (fs, None) ->
  fs !! file_path = Some sz ->
  sz <= MAX_TELEGRAM_FILE_SIZE ->
  let w' := snd (download_video env u res q w) in
  (exists later,
     trace w' =
       (later
        ++ ReplyVideo file_path true DOWNLOAD_TIMEOUT DOWNLOAD_TIMEOUT DOWNLOAD_TIMEOUT
           :: ReplyText "✅ Download complete! Uploading now..." None
           :: YdlDownload (download_opts res file_path) u
           :: trace w)%list)
  /\ files w' = delete file_path fs
  /\ user_data w' = user_data w.
Proof.
  intros file_path Hchat Hy Hsz Hle w'. subst w'.
  assert (Hrun : download_video env u res q w =
                 (Ok tt,
                  with_files (delete file_path fs)
                    (record (ReplyText "🎉 Done! Want to download another video?"
                               (Some [[Button "⬇️ Download Another" "enter_link"]]))
                       (bump (record (ReplyVideo file_path true DOWNLOAD_TIMEOUT
                                        DOWNLOAD_TIMEOUT DOWNLOAD_TIMEOUT)
                                (bump (record (ReplyText
                                                 "✅ Download complete! Uploading now..."
                                                 None)
                                         (bump (after_ydl u res file_path fs
                                                  (bump w)))))))))).
  { rewrite download_video_run. fold file_path. cbv zeta.
    unfold try_finally, try_except. rewrite download_body_run.
    cbn [calls bump files]. rewrite Hy, Hsz. cbv zeta.
    rewrite (proj2 (Z.ltb_ge _ _) Hle).
    unfold upload, bind, reply_text, reply_video, chat_call. rewrite !Hchat.
    rewrite download_cleanup_run. cbn [files record bump after_ydl with_files].
    now rewrite Hsz. }
  rewrite Hrun. split; [|split; reflexivity].
  now exists [ReplyText "🎉 Done! Want to download another video?"
                (Some [[Button "⬇️ Download Another" "enter_link"]])].
Qed.

Lemma download_success_run_witness :
  let w' := snd (download_video (env_writing 5000000) sample_url "720"
                   sample_query empty_world) in
  (exists later,
     trace w' =
       (later
        ++ [ReplyVideo "download_7_1700000000.mp4" true 300 300 300;
            ReplyText "✅ Download complete! Uploading now..." None;
            YdlDownload (download_opts "720" "download_7_1700000000.mp4") sample_url])%list)
  /\ files w' = delete "download_7_1700000000.mp4"
                  (<["download_7_1700000000.mp4" := 5000000]> ∅)
  /\ user_data w' = ∅.
Proof.
  apply (download_success_run (env_writing 5000000) sample_url "720" sample_query
           empty_world (<["download_7_1700000000.mp4" := 5000000]> ∅) 5000000).
  - reflexivity.
  - reflexivity.
  - reflexivity.
  - discriminate.
Defined.

(** When the resolver returns without having written the output file, the
    user is told so, the fault is logged, and the files are left as the
    resolver left them. *)
Theorem missing_output_reported env u res q w fs :
  let file_path := artifact_path (chat_id q) (clock env (calls w)) in
  ydl_download env (S (S (calls w))) (download_opts res file_path) u (files w) = (fs, None) ->
  fs !! file_path = None ->
  let w' := snd (download_video env u res q w) in
  trace w' =
    ReplyText "❌ Download failed: Download failed - no output file" None
    :: LogError "Download error: Download failed - no output file"
    :: YdlDownload (download_opts res file_path) u
    :: trace w
  /\ files w' = fs.
Proof.
  intros file_path Hy Hnone w'. subst w'.
  assert (Hb : download_body env u res file_path (bump w) =
               (Raise (FileNotFoundError "Download failed - no output file"),
                after_ydl u res file_path fs (bump w))).
  { rewrite download_body_run. cbn [calls bump files]. now rewrite Hy, Hnone. }
  split.
  - now rewrite (download_video_failure_trace env u res q w _ _ Hb).
  - rewrite download_video_run. fold file_path. cbv zeta.
    unfold try_finally, try_except. rewrite Hb, download_failed_run.
    unfold reply_text, chat_call.
    destruct (chat env _ _); rewrite download_cleanup_run;
      cbn [files record bump after_ydl with_files snd]; now rewrite Hnone.
Qed.

Lemma missing_output_reported_witness :
  let w' := snd (download_video env_audio_only sample_url "720" sample_query
                   empty_world) in
  trace w' =
    [ReplyText "❌ Download failed: Download failed - no output file" None;
     LogError "Download error: Download failed - no output file";
     YdlDownload (download_opts "720" "download_7_1700000000.mp4") sample_url]
  /\ files w' = ∅.
Proof.
  apply (missing_output_reported env_audio_only sample_url "720" sample_query
           empty_world ∅).
  - reflexivity.
  - reflexivity.
Defined.

(** ** From the menu to the download *)

(** The payload that [handle_message] puts on the button of a height is
    read back by [button_handler] as the decimal text of that height: the
    split at the underscore returns it whole, and it denotes the height. *)
Theorem offered_payload_reads_back res :
  let payload := "quality_" ++ Py.str res in
  String.eqb payload "enter_link" = false
  /\ String.prefix "quality_" payload = true
  /\ Py.second (Py.split "_" payload) = Some (Py.str res)
  /\ Py.int (Py.str res) = Some res.
Proof.
  cbv zeta. split; [apply quality_not_enter_link|].
  split; [apply quality_prefix|]. split; [|apply int_str].
  rewrite quality_of_payload. f_equal. apply before_without.
  now apply str_chars.
Qed.



(** A payload that is neither ["enter_link"] nor a quality is answered and
    otherwise ignored: no reply, no store access, no download. *)
Theorem unknown_payload_only_answered env q w :
  String.eqb (data q) "enter_link" = false ->
  String.prefix "quality_" (data q) = false ->
  button_handler env q w =
    match chat env (calls w) Answer with
    | Some e => (Raise e, record Answer (bump w))
    | None => (Ok tt, record Answer (bump w))
    end.
Proof.
  intros He Hp. unfold button_handler, bind, query_answer, chat_call.
  rewrite He, Hp. destruct (chat env (calls w) Answer); reflexivity.
Qed.

Lemma unknown_payload_only_answered_witness :
  button_handler (env_writing 1) (Query 7 "qualityX720") world_after_link =
    (Ok tt, record Answer (bump world_after_link)).
Proof.
  exact (unknown_payload_only_answered (env_writing 1) (Query 7 "qualityX720")
           world_after_link eq_refl eq_refl).
Defined.

(** ** Normalisation and validation *)

Lemma before_rest sep s :
  exists t, s = before sep s ++ t /\ (t = "" \/ exists t', t = String sep t').
Proof.
  induction s as [|c s (t & IH & Ht)]; [exists ""; split; [reflexivity|now left]|].
  rewrite before_cons. destruct (Ascii.eqb_spec c sep) as [->|Hne].
  - exists (String sep s). split; [reflexivity|]. right. now exists s.
  - exists t. split; [|exact Ht].
    change (String c s = String c (before sep s ++ t)). now f_equal.
Qed.

(** Normalisation never turns a text that the validation would reject into
    one that it accepts. *)
Theorem normalized_valid_only_if_valid u :
  is_valid_youtube_url (normalize_youtube_url u) = true ->
  is_valid_youtube_url u = true.
Proof.
  unfold is_valid_youtube_url. destruct (Py.contains "youtu.be" u) eqn:Es.
  - intros _. apply orb_true_r.
  - rewrite (normalize_long_form u Es). intros H.
    apply orb_true_iff in H as [H|H]; apply contains_before in H.
    + now rewrite H.
    + congruence.
Qed.

Lemma normalized_valid_only_if_valid_witness :
  is_valid_youtube_url "https://www.youtube.com/watch?v=abc123&t=5" = true.
Proof.
  apply (normalized_valid_only_if_valid "https://www.youtube.com/watch?v=abc123&t=5").
  reflexivity.
Defined.

(** A text that contains ["youtu.be"] is always normalised to the long
    form with a video id free of slashes and question marks, and that form
    always passes the validation. *)
Theorem short_link_canonical_form u :
  Py.contains "youtu.be" u = true ->
  normalize_youtube_url u = "https://www.youtube.com/watch?v=" ++ video_id u
  /\ Py.contains "/" (video_id u) = false
  /\ Py.contains "?" (video_id u) = false
  /\ is_valid_youtube_url (normalize_youtube_url u) = true.
Proof.
  intros H. rewrite (normalize_short_form u H).
  split; [reflexivity|]. split; [apply video_id_no_slash|].
  split; [rewrite video_id_eq; apply before_clean|].
  unfold is_valid_youtube_url.
  rewrite (contains_app_l "youtube.com" watch_prefix (video_id u) eq_refl).
  reflexivity.
Qed.

Lemma short_link_canonical_form_witness :
  normalize_youtube_url "youtu.be/abc123?t=5"
    = "https://www.youtube.com/watch?v=" ++ video_id "youtu.be/abc123?t=5"
  /\ Py.contains "/" (video_id "youtu.be/abc123?t=5") = false
  /\ Py.contains "?" (video_id "youtu.be/abc123?t=5") = false
  /\ is_valid_youtube_url (normalize_youtube_url "youtu.be/abc123?t=5") = true.
Proof.
  apply (short_link_canonical_form "youtu.be/abc123?t=5"). reflexivity.
Defined.

(** A text without ["youtu.be"] is cut at its first ampersand and is
    otherwise unchanged: the result has no ampersand, and what was removed
    is nothing or starts with the ampersand. *)
Theorem long_link_cut_at_ampersand u :
  Py.contains "youtu.be" u = false ->
  Py.contains "&" (normalize_youtube_url u) = false
  /\ exists t, u = normalize_youtube_url u ++ t
               /\ (t = "" \/ exists t', t = String "&" t').
Proof.
  intros H. rewrite (normalize_long_form u H).
  split; [apply before_clean|apply before_rest].
Qed.

Lemma long_link_cut_at_ampersand_witness :
  Py.contains "&" (normalize_youtube_url "https://www.youtube.com/watch?v=a&t=5&x=1")
    = false
  /\ exists t, "https://www.youtube.com/watch?v=a&t=5&x=1"
               = normalize_youtube_url "https://www.youtube.com/watch?v=a&t=5&x=1" ++ t
               /\ (t = "" \/ exists t', t = String "&" t').
Proof.
  apply (long_link_cut_at_ampersand "https://www.youtube.com/watch?v=a&t=5&x=1").
  reflexivity.
Defined.

(** ** The formats dictionary *)

Lemma elem_of_usable_heights fs h :
  h ∈ usable_heights fs <->
  exists f, f ∈ fs /\ height f = Some h /\ h <> 0 /\ vcodec f <> Some "none".
Proof.
  unfold usable_heights. rewrite list_elem_of_omap. split.
  - intros (f & Hf & Hu). exists f. split; [exact Hf|].
    unfold usable in Hu. destruct (height f) as [h'|]; [|discriminate].
    destruct (Z.eqb_spec h' 0) as [|Hz]; cbn [negb andb] in Hu; [discriminate|].
    case_bool_decide as Hc; cbn [negb] in Hu; [discriminate|].
    injection Hu as ->. now repeat split.
  - intros (f & Hf & Hh & Hz & Hc). exists f. split; [exact Hf|].
    unfold usable. rewrite Hh.
    rewrite (proj2 (Z.eqb_neq h 0) Hz), bool_decide_false by exact Hc.
    reflexivity.
Qed.

(** The dictionary built by [get_video_qualities] has a key exactly for
    the formats whose height is present and not zero and whose video codec
    is not ["none"]; the key is the decimal text of the height. *)
Theorem formats_keys_are_usable_heights fs k :
  is_Some (qualities fs !! k) <->
  exists f h, f ∈ fs /\ height f = Some h /\ h <> 0 /\ vcodec f <> Some "none"
              /\ k = Py.str h.
Proof.
  rewrite qualities_keys. split.
  - intros (h & Hh & ->). apply elem_of_usable_heights in Hh as (f & Hf).
    exists f, h. tauto.
  - intros (f & h & Hf & Hh & Hz & Hc & ->). exists h. split; [|reflexivity].
    apply elem_of_usable_heights. now exists f.
Qed.

Lemma qualities_from_other_heights rest (m : gmap string string) h :
  Forall (fun f => usable f = true -> height f <> Some h) rest ->
  foldl (fun m f =>
           match height f with
           | Some h => if usable f then <[Py.str h := format_id f]> m else m
           | None => m
           end) m rest !! Py.str h
  = m !! Py.str h.
Proof.
  intros H. revert m. induction H as [|f rest Hf _ IH]; intros m; [reflexivity|].
  cbn [foldl]. rewrite IH. destruct (height f) as [h'|]; [|reflexivity].
  destruct (usable f); [|reflexivity].
  apply lookup_insert_ne. intros E. apply str_inj in E. subst h'. now apply Hf.
Qed.

(** When several usable formats have the same height, the dictionary keeps
    the format id of the last one in the resolver's list. *)
Theorem last_usable_format_wins fs f rest h :
  height f = Some h ->
  usable f = true ->
  Forall (fun f' => usable f' = true -> height f' <> Some h) rest ->
  qualities (fs ++ f :: rest) !! Py.str h = Some (format_id f).
Proof.
  intros Hh Hu Hrest. unfold qualities. rewrite foldl_app. cbn [foldl].
  rewrite (qualities_from_other_heights rest _ h Hrest).
  rewrite Hh, Hu. apply lookup_insert_eq.
Qed.

Lemma last_usable_format_wins_witness :
  qualities ([Fmt (Some 720) (Some "vp9") "247"]
             ++ Fmt (Some 720) (Some "avc1.64001F") "22"
             :: [Fmt (Some 360) (Some "avc1.42001E") "18";
                 Fmt (Some 720) (Some "none") "251"])
    !! Py.str 720
  = Some "22".
Proof.
  apply (last_usable_format_wins [Fmt (Some 720) (Some "vp9") "247"]
           (Fmt (Some 720) (Some "avc1.64001F") "22")
           [Fmt (Some 360) (Some "avc1.42001E") "18";
            Fmt (Some 720) (Some "none") "251"] 720).
  - reflexivity.
  - reflexivity.
  - repeat constructor; cbn; discriminate.
Defined.

(** [get_video_qualities] never raises: a fault of the resolver becomes
    the result [None]. *)
Theorem discovery_never_raises env u w :
  exists found,
    fst (get_video_qualities env u w) = Ok found
    /\ (found = None <-> exists e, extract_info env (calls w) u = inl e).
Proof.
  destruct (extract_info env (calls w) u) as [e|fs] eqn:He.
  - exists None. rewrite (get_video_qualities_fault env u w e He).
    split; [reflexivity|]. split; [now exists e|reflexivity].
  - exists (Some (qualities fs)). rewrite (get_video_qualities_run env u w fs He).
    split; [reflexivity|]. split; [discriminate|intros [e [=]]].
Qed.

(** ** The size printed *)

(** The number of hundredths printed for a quotient is a nearest one, and
    the even one when two are equally near. *)
Theorem round_half_even_is_nearest num den :
  0 < den ->
  let n := round_half_even num den in
  Z.abs (2 * (n * den - num)) <= den
  /\ (Z.abs (2 * (n * den - num)) = den -> Z.even n = true).
Proof.
  intros Hden n. subst n. unfold round_half_even.
  pose proof (Z.div_mod num den ltac:(lia)) as Hdm.
  pose proof (Z.mod_pos_bound num den Hden) as Hb.
  set (q := num / den) in *. set (r := num mod den) in *.
  destruct (Z.ltb_spec (2 * r) den); [split; nia|].
  destruct (Z.ltb_spec den (2 * r)); [split; nia|].
  destruct (Z.even q) eqn:E; split; try nia; intros _; [exact E|].
  now rewrite Z.add_1_r, Z.even_succ, <- Z.negb_even, E.
Qed.

Lemma round_half_even_is_nearest_witness :
  Z.abs (2 * (round_half_even (100 * 131072) (1024 * 1024) * (1024 * 1024)
              - 100 * 131072)) <= 1024 * 1024
  /\ (Z.abs (2 * (round_half_even (100 * 131072) (1024 * 1024) * (1024 * 1024)
                  - 100 * 131072)) = 1024 * 1024 ->
      Z.even (round_half_even (100 * 131072) (1024 * 1024)) = true).
Proof.
  apply (round_half_even_is_nearest (100 * 131072) (1024 * 1024)). reflexivity.
Defined.

(** ** The sweep loop *)

Lemma cleanup_old_data_step env turns w :
  cleanup_old_data env (S turns) w =
  cleanup_old_data env turns (snd (cleanup_pass env w)).
Proof. cbn [cleanup_old_data]. unfold bind. now rewrite cleanup_pass_run. Qed.

(** However many turns the loop makes, it never raises, adds no entry and
    changes none: what is in the store afterwards was there before. *)
Theorem cleanup_old_data_only_removes env turns w :
  fst (cleanup_old_data env turns w) = Ok tt
  /\ forall (u : Z) d,
       user_data (snd (cleanup_old_data env turns w)) !! u = Some d ->
       user_data w !! u = Some d.
Proof.
  revert w. induction turns as [|turns IH]; intros w.
  - split; [reflexivity|]. intros u d H. exact H.
  - rewrite cleanup_old_data_step. destruct (IH (snd (cleanup_pass env w))) as [Hr Hk].
    split; [exact Hr|]. intros u d H. apply Hk in H.
    rewrite cleanup_pass_store, sweep_lookup in H.
    destruct (user_data w !! u) as [d'|]; [|discriminate].
    now destruct (decide _).
Qed.

(** An entry survives every turn of the loop as long as no reading of the
    clock is later than its time stamp plus [CACHE_EXPIRY]. *)
Theorem fresh_entry_survives_sweeps env turns w (u : Z) d :
  user_data w !! u = Some d ->
  (forall n, (clock env n <= timestamp d + CACHE_EXPIRY)%Q) ->
  user_data (snd (cleanup_old_data env turns w)) !! u = Some d.
Proof.
  intros Hd Hclock. revert w Hd. induction turns as [|turns IH]; intros w Hd.
  - exact Hd.
  - rewrite cleanup_old_data_step. apply IH.
    rewrite cleanup_pass_store, sweep_lookup, Hd. apply decide_False.
    specialize (Hclock (calls w)). intros Hlt%expired_iff.
    rewrite half_ulp_expiry_value in Hlt. unfold CACHE_EXPIRY in *. lra.
Qed.

Lemma fresh_entry_survives_sweeps_witness :
  user_data (snd (cleanup_old_data (env_writing 1) 5
                    (World {[7 := Entry sample_url ∅ 1699999000%Q]} ∅ [] 0))) !! 7
  = Some (Entry sample_url ∅ 1699999000%Q).
Proof.
  apply (fresh_entry_survives_sweeps (env_writing 1) 5
           (World {[7 := Entry sample_url ∅ 1699999000%Q]} ∅ [] 0) 7
           (Entry sample_url ∅ 1699999000%Q)).
  - reflexivity.
  - intros n. vm_compute. discriminate.
Defined.

(** ** The buttons the bot sends *)

Lemma understood_cons ev w w' :
  trace w' = ev :: trace w ->
  (forall b, In b (event_buttons ev) -> payload_understood (callback_data b)) ->
  buttons_understood w -> buttons_understood w'.
Proof.
  intros Ht Hev Hw ev' b Hin Hb. rewrite Ht in Hin. destruct Hin as [<-|Hin].
  - now apply Hev.
  - eapply Hw; eassumption.
Qed.

Lemma understood_same_trace w w' :
  trace w' = trace w -> buttons_understood w -> buttons_understood w'.
Proof. intros Ht Hw ev b Hin. rewrite Ht in Hin. now apply Hw. Qed.

Lemma keeps_ints (I : world -> Prop) keys : keeps I (ints keys).
Proof.
  induction keys as [|k keys IH]; [apply keeps_ret|]. cbn [ints].
  apply keeps_bind; [apply keeps_or_raise|intros n].
  apply keeps_bind; [exact IH|intros ns]. apply keeps_ret.
Qed.

Section ButtonsUnderstood.

Context (env : Env).

Lemma understood_chat_call ev :
  (forall b, In b (event_buttons ev) -> payload_understood (callback_data b)) ->
  keeps buttons_understood (chat_call env ev).
Proof.
  intros Hev w Hw. apply (understood_cons ev w); [|exact Hev|exact Hw].
  unfold chat_call. now destruct (chat env (calls w) ev).
Qed.

Lemma understood_plain_reply text : keeps buttons_understood (reply_text env text None).
Proof. apply understood_chat_call. intros b []. Qed.

Lemma understood_logger_error text : keeps buttons_understood (logger_error text).
Proof.
  intros w Hw. apply (understood_cons (LogError text) w); [reflexivity| |exact Hw].
  intros b [].
Qed.

Lemma understood_time_time : keeps buttons_understood (time_time env).
Proof. intros w Hw. now apply (understood_same_trace w). Qed.

Lemma understood_get_world : keeps buttons_understood get_world.
Proof. intros w Hw. exact Hw. Qed.

Lemma understood_set_user_data d : keeps buttons_understood (set_user_data d).
Proof. intros w Hw. now apply (understood_same_trace w). Qed.

Lemma understood_ydl_extract_info u : keeps buttons_understood (ydl_extract_info env u).
Proof.
  intros w Hw. apply (understood_cons (ExtractInfo u) w); [| |exact Hw].
  - unfold ydl_extract_info. now destruct (extract_info env (calls w) u).
  - intros b [].
Qed.

Lemma understood_ydl_download_call opts u :
  keeps buttons_understood (ydl_download_call env opts u).
Proof.
  intros w Hw. apply (understood_cons (YdlDownload opts u) w); [| |exact Hw].
  - unfold ydl_download_call.
    now destruct (ydl_download env (calls w) opts u (files w)) as [fs [e|]].
  - intros b [].
Qed.

Lemma understood_os_path_exists p : keeps buttons_understood (os_path_exists p).
Proof. intros w Hw. exact Hw. Qed.

Lemma understood_os_path_getsize p : keeps buttons_understood (os_path_getsize p).
Proof.
  intros w Hw. unfold os_path_getsize. now destruct (files w !! p).
Qed.

Lemma understood_os_remove p : keeps buttons_understood (os_remove p).
Proof.
  intros w Hw. unfold os_remove. destruct (files w !! p); [|exact Hw].
  now apply (understood_same_trace w).
Qed.

Lemma quality_buttons_understood (l : list Z) b :
  In b (concat (quality_button <$> l)) -> payload_understood (callback_data b).
Proof.
  induction l as [|res l IH]; [intros []|].
  cbn [fmap list_fmap concat quality_button app].
  intros [<-|H]; [|now apply IH]. right. now exists res.
Qed.

Ltac understood :=
  repeat first
    [ apply keeps_bind; [|intros ?]
    | apply keeps_try_finally
    | apply keeps_try_except; [|intros ?]
    | apply keeps_if
    | apply keeps_ret
    | apply keeps_raise
    | apply keeps_or_raise
    | apply keeps_ints
    | apply understood_plain_reply
    | apply understood_logger_error
    | apply understood_time_time
    | apply understood_get_world
    | apply understood_set_user_data
    | apply understood_ydl_extract_info
    | apply understood_ydl_download_call
    | apply understood_os_path_exists
    | apply understood_os_path_getsize
    | apply understood_os_remove
    | match goal with
      | |- keeps _ (match ?o with _ => _ end) => destruct o
      end ].

Lemma understood_start : keeps buttons_understood (start env).
Proof.
  unfold start. apply understood_chat_call.
  intros b [<-|[]]. now left.
Qed.

Lemma understood_download_video u res q :
  keeps buttons_understood (download_video env u res q).
Proof.
  unfold download_video, download_body, download_failed, download_cleanup.
  understood.
  - apply understood_chat_call. intros b [].
  - apply understood_chat_call. intros b [<-|[]]. now left.
Qed.

Lemma understood_handle_message user_id text :
  keeps buttons_understood (handle_message env user_id text).
Proof.
  unfold handle_message, get_video_qualities. understood.
  apply understood_chat_call. apply quality_buttons_understood.
Qed.

Lemma understood_on_button q o : keeps buttons_understood (on_button env q o).
Proof.
  unfold on_button, query_answer.
  apply keeps_bind; [apply understood_chat_call; intros b []|intros _].
  apply keeps_if; [apply understood_plain_reply|].
  apply keeps_if; [|apply keeps_ret].
  destruct o; [|apply understood_plain_reply].
  apply keeps_bind; [apply keeps_or_raise|intros quality].
  apply keeps_bind; [apply understood_plain_reply|intros _].
  apply understood_download_video.
Qed.

End ButtonsUnderstood.

(** Every button the bot has sent carries a payload that [button_handler]
    acts on, ["enter_link"] or ["quality_"] followed by a number: [start],
    [handle_message], [button_handler] and the sweep keep this true. *)
Theorem sent_buttons_are_understood env user_id text q w :
  buttons_understood w ->
  buttons_understood (snd (start env w))
  /\ buttons_understood (snd (handle_message env user_id text w))
  /\ buttons_understood (snd (button_handler env q w))
  /\ buttons_understood (snd (cleanup_pass env w)).
Proof.
  intros Hw. split; [|split; [|split]].
  - now apply understood_start.
  - now apply understood_handle_message.
  - rewrite button_handler_reads_url. now apply understood_on_button.
  - apply (understood_cons (Sleep 3600) w); [now rewrite cleanup_pass_run| |exact Hw].
    intros b [].
Qed.

Lemma world_after_link_buttons : buttons_understood world_after_link.
Proof.
  intros ev b Hin Hb. vm_compute in Hin.
  destruct Hin as [<-|[<-|[]]]; [|destruct Hb].
  vm_compute in Hb.
  destruct Hb as [<-|[<-|[<-|[<-|[]]]]]; right;
    [exists 1080|exists 720|exists 480|exists 360]; reflexivity.
Qed.

Lemma sent_buttons_are_understood_witness :
  buttons_understood (snd (start env_late world_after_link))
  /\ buttons_understood
       (snd (handle_message env_late 8 "https://youtu.be/xyz" world_after_link))
  /\ buttons_understood (snd (button_handler env_late sample_query world_after_link))
  /\ buttons_understood (snd (cleanup_pass env_late world_after_link)).
Proof.
  apply (sent_buttons_are_understood env_late 8 "https://youtu.be/xyz" sample_query
           world_after_link).
  exact world_after_link_buttons.
Defined.
